(** * A shallow embedding of the CleanArchitecture RAG pre-processing code

    Sources embedded here:
    - [src/preprocessing/clean_architecture_loader.py]
      ([SimpleDirectoryLoader], [CleanArchitectureDocumentLoader]);
    - [src/preprocessing/vector_db_manager.py] ([VectorDBManager]).

    Python [str] values are Rocq [string]s, Python [int]s are [Z], a
    Python [dict] used as a payload is a [gmap string _], and a call that
    may raise returns a [result]. *)

From stdpp Require Import base strings gmap.
From Stdlib Require Import ZArith List Bool Ascii String Lia DecimalString.
Import ListNotations.
Local Open Scope Z_scope.

(** ** Characters and strings *)

(** The line feed, which Python writes [\n] inside a string literal. *)
Definition LF : ascii := Ascii.ascii_of_nat 10.

(** One line feed as a string: the Python literal ['\n']. *)
Definition newline : string := String LF EmptyString.

(** The two characters backslash and [n]: the Python literal ['\\n']. *)
Definition backslash_n : string := "\n"%string.

(** [sep.join(parts)]. *)
Fixpoint join (sep : string) (parts : list string) : string :=
  match parts with
  | [] => EmptyString
  | [p] => p
  | p :: rest => p +:+ sep +:+ join sep rest
  end.

(** [needle in hay] for two strings: [needle] starts at some position of
    [hay]. *)
Fixpoint contains (needle hay : string) : bool :=
  String.prefix needle hay ||
  match hay with
  | EmptyString => false
  | String _ hay' => contains needle hay'
  end.

Fixpoint string_map (f : ascii -> ascii) (s : string) : string :=
  match s with
  | EmptyString => EmptyString
  | String c s' => String (f c) (string_map f s')
  end.

(** [str(n)] for a Python [int]. *)
Definition str_of_int (n : Z) : string := NilZero.string_of_int (Z.to_int n).

(** ** Exceptions and logging *)

(** The instances of Python's [Exception] this program tells apart; each
    carries the text [str(e)] that the log messages interpolate. *)
Inductive exn : Type :=
| UnexpectedResponse (text : string)
    (* qdrant_client.http.exceptions.UnexpectedResponse *)
| ValueError (text : string)
| OtherException (class_name text : string).

Definition exn_text (e : exn) : string :=
  match e with
  | UnexpectedResponse text => text
  | ValueError text => text
  | OtherException _ text => text
  end.

(** The outcome of a call that may raise. *)
Inductive result (A : Type) : Type :=
| Ok (a : A)
| Raise (e : exn).
Arguments Ok {A} a.
Arguments Raise {A} e.

#[global] Instance result_ret : MRet result := fun _ a => Ok a.

#[global] Instance result_bind : MBind result := fun _ _ k m =>
  match m with
  | Ok a => k a
  | Raise e => Raise e
  end.

(** What [logger.debug], [logger.info], [logger.warning] and [logger.error]
    emit. *)
Inductive level : Set := DEBUG | INFO | WARNING | ERROR.

Record log_record : Type := Log { levelname : level; message : string }.

(** ** Values *)

(** The values a metadata or payload [dict] holds ([Dict[str, Any]]). *)
#[warnings="-register-all"] Inductive value : Type :=
| VStr (s : string)
| VInt (n : Z)
| VDict (d : gmap string value).

(** ** [fnmatch] *)

(** [os.path] comes in two flavours, and [fnmatch.fnmatch] depends on the
    one in use through [os.path.normcase]. *)
Inductive os_flavour : Set := posix | nt.

Definition is_upper (c : ascii) : bool :=
  (65 <=? Z.of_nat (nat_of_ascii c)) && (Z.of_nat (nat_of_ascii c) <=? 90).

(** [c.lower()] on the ASCII range. *)
Definition lower (c : ascii) : ascii :=
  if is_upper c then ascii_of_nat (nat_of_ascii c + 32) else c.

(** [posixpath.normcase] returns its argument; [ntpath.normcase] replaces
    every slash by a backslash and lowers the case (here: of the letters
    [A] to [Z]; no property below depends on how a file name is
    lowered). *)
Definition normcase (os : os_flavour) (s : string) : string :=
  match os with
  | posix => s
  | nt => string_map (fun c => lower (if Ascii.eqb c "/" then "\"%char else c)) s
  end.

(** [fnmatch.fnmatchcase(name, pat)] for patterns built from [*], [?] and
    literal characters: [*] matches any run of characters, [?] any single
    one, and the whole of [name] has to be matched.  Bracket classes, which
    no pattern of this program uses, are not modelled. *)
Fixpoint fnmatchcase_pat (pat : string) : string -> bool :=
  match pat with
  | EmptyString => fun name =>
      match name with EmptyString => true | String _ _ => false end
  | String c pat' =>
      if Ascii.eqb c "*" then
        fix star (name : string) : bool :=
          fnmatchcase_pat pat' name ||
          match name with
          | EmptyString => false
          | String _ name' => star name'
          end
      else if Ascii.eqb c "?" then fun name =>
        match name with
        | EmptyString => false
        | String _ name' => fnmatchcase_pat pat' name'
        end
      else fun name =>
        match name with
        | EmptyString => false
        | String d name' => Ascii.eqb c d && fnmatchcase_pat pat' name'
        end
  end.

Definition fnmatchcase (name pat : string) : bool := fnmatchcase_pat pat name.

(** [fnmatch.fnmatch(name, pat)]: both arguments go through [normcase]. *)
Definition fnmatch (os : os_flavour) (name pat : string) : bool :=
  fnmatchcase (normcase os name) (normcase os pat).

(** A pattern without [*] and [?]. *)
Definition literal (pat : string) : Prop :=
  forall c, In c (list_ascii_of_string pat) -> c <> "*"%char /\ c <> "?"%char.

(** ** Paths *)

(** A [pathlib.Path] object, as the attributes this program reads of it:
    [file_path.parts], [file_path.name] and [str(file_path)]. *)
Record Path : Type := mkPath {
  parts : list string;
  name : string;
  str : string
}.

(** ** [SimpleDirectoryLoader]: the file classifier *)

(** [FILE_TYPE_PATTERNS]: a [dict] literal, iterated in the order it is
    written. *)
Definition FILE_TYPE_PATTERNS : list (string * list string) :=
  [ ("csharp", ["*.cs"]);
    ("project", ["*.csproj"; "*.sln"]);
    ("config", ["*.json"; "*.xml"; "*.yml"; "*.yaml"; "appsettings*.json"]);
    ("documentation", ["*.md"; "*.rst"; "*.txt"]);
    ("web", ["*.html"; "*.css"; "*.js"; "*.ts"]);
    ("test", ["*test*.cs"; "*Test*.cs"; "*Tests*.cs"]);
    ("migration", ["*Migration*.cs"; "*migration*.cs"]) ]%string.

(** The inner loop of [identify_file_type]: does some pattern of the list
    match? *)
Definition matches_any (os : os_flavour) (file_name : string)
    (patterns : list string) : bool :=
  existsb (fnmatch os file_name) patterns.

(** The outer loop of [identify_file_type] over the items of a table. *)
Fixpoint first_matching_type (os : os_flavour) (file_name : string)
    (table : list (string * list string)) : option string :=
  match table with
  | [] => None
  | (file_type, patterns) :: table' =>
      if matches_any os file_name patterns then Some file_type
      else first_matching_type os file_name table'
  end.

Definition identify_file_type (os : os_flavour) (file_path : Path) : string :=
  match first_matching_type os (name file_path) FILE_TYPE_PATTERNS with
  | Some file_type => file_type
  | None => "other"%string
  end.

(** The category set of the specification. *)
Definition categories : list string :=
  [ "csharp"; "project"; "config"; "documentation"; "web"; "test";
    "migration"; "other" ]%string.

(** The patterns of the categories [test] and [migration]. *)
Definition late_cs_patterns : list string :=
  [ "*test*.cs"; "*Test*.cs"; "*Tests*.cs"; "*Migration*.cs";
    "*migration*.cs" ]%string.

(** ** [SimpleDirectoryLoader]: metadata, prefix and file processing *)

Record DocumentMetadata : Type := mkDocumentMetadata {
  source : string;
  file_type : string;
  token_count : Z;
  chunk_index : Z;
  total_chunks : Z
}.

(** [dataclasses.asdict(metadata)]. *)
Definition asdict (m : DocumentMetadata) : gmap string value :=
  <["source" := VStr (source m)]>
  (<["file_type" := VStr (file_type m)]>
  (<["token_count" := VInt (token_count m)]>
  (<["chunk_index" := VInt (chunk_index m)]>
  (<["total_chunks" := VInt (total_chunks m)]> ∅))))%string.

(** A langchain [Document]. *)
Record Document : Type := mkDocument {
  page_content : string;
  metadata : gmap string value
}.

(** [doc.metadata[key]] when it is an [int]. *)
Definition metadata_int (key : string) (doc : Document) : option Z :=
  match metadata doc !! key with
  | Some (VInt n) => Some n
  | _ => None
  end.

(** A [SimpleDirectoryLoader] instance, as what its methods use of it and
    of the libraries they call: the [os.path] flavour of the interpreter,
    [self.tokenizer.encode] (tiktoken), [split_text] of a
    [RecursiveCharacterTextSplitter] built from a chunk size, a chunk
    overlap, [len] and a separator list (langchain), reading a file opened
    with [encoding="utf-8", errors='replace'], and [Path(s)] for a string
    [s]. *)
Record SimpleDirectoryLoader : Type := {
  os : os_flavour;
  tokenizer_encode : string -> result (list Z);
  splitter_split_text : Z -> Z -> list string -> string -> result (list string);
  open_read : Path -> result string;
  Path_of_str : string -> Path
}.

Definition load_file_content (self : SimpleDirectoryLoader) (file_path : Path)
    : option string * list log_record :=
  match open_read self file_path with
  | Ok content => (Some content, [])
  | Raise e =>
      (None,
       [Log WARNING ("Failed to load " +:+ str file_path +:+ ": " +:+ exn_text e)])
  end.

(** [next(i for i, part in enumerate(path_parts) if p part)]; [None] stands
    for [StopIteration]. *)
Fixpoint first_index {A} (p : A -> bool) (l : list A) : option nat :=
  match l with
  | [] => None
  | x :: l' => if p x then Some O else S <$> first_index p l'
  end.

(** The [try] block of [create_enhanced_metadata] that computes
    [source_path]. *)
Definition source_path_of (file_path : Path) : string :=
  let path_parts := parts file_path in
  match first_index (contains "CleanArchitecture") path_parts with
  | Some clean_arch_index =>
      let relative_parts := skipn clean_arch_index path_parts in
      join "\" relative_parts
  | None => str file_path
  end.

Definition create_enhanced_metadata (self : SimpleDirectoryLoader)
    (file_path : Path) (content : string) (chunk_index total_chunks : Z)
    : result DocumentMetadata :=
  let file_type := identify_file_type (os self) file_path in
  let source_path := source_path_of file_path in
  tokens ← tokenizer_encode self content;
  mret {| source := source_path;
          file_type := file_type;
          token_count := Z.of_nat (List.length tokens);
          chunk_index := chunk_index;
          total_chunks := total_chunks |}.

(** [chunk_content] builds a [RecursiveCharacterTextSplitter] and hands the
    content to it: how the text is cut is the library's business. *)
Definition chunk_content (self : SimpleDirectoryLoader) (content : string)
    (max_tokens overlap_tokens : Z) : result (list string) :=
  splitter_split_text self max_tokens overlap_tokens
    [newline +:+ newline; newline; " "; ""]%string content.

(** The list [context_parts] of [add_contextual_prefix]. *)
Definition context_parts (self : SimpleDirectoryLoader)
    (metadata : DocumentMetadata) : list string :=
  [ "File: " +:+ name (Path_of_str self (source metadata));
    "Type: " +:+ file_type metadata ]
  ++ (if 1 <? total_chunks metadata
      then [ "Part " +:+ str_of_int (chunk_index metadata + 1) +:+ " of "
             +:+ str_of_int (total_chunks metadata) ]
      else []).

Definition add_contextual_prefix (self : SimpleDirectoryLoader)
    (content : string) (metadata : DocumentMetadata) : string :=
  let context_prefix :=
    "[" +:+ join " | " (context_parts self metadata) +:+ "]\n\n" in
  context_prefix +:+ content.

(** The [for i, chunk in enumerate(chunks)] loop of [process_file], from
    index [i] on; [n] is [len(chunks)]. *)
Fixpoint process_chunks (self : SimpleDirectoryLoader) (file_path : Path)
    (n i : Z) (chunks : list string) : result (list Document) :=
  match chunks with
  | [] => mret []
  | chunk :: chunks' =>
      metadata ← create_enhanced_metadata self file_path chunk i n;
      let enhanced_content := add_contextual_prefix self chunk metadata in
      let doc := {| page_content := enhanced_content;
                    metadata := asdict metadata |} in
      documents ← process_chunks self file_path n (i + 1) chunks';
      mret (doc :: documents)
  end.

(** The body of the [try] of [process_file], once [content] is there and
    not empty. *)
Definition process_content (self : SimpleDirectoryLoader) (file_path : Path)
    (content : string) : result (list Document) :=
  chunks ← chunk_content self content 1000 100;
  process_chunks self file_path (Z.of_nat (List.length chunks)) 0 chunks.

Definition process_file (self : SimpleDirectoryLoader) (file_path : Path)
    : list Document * list log_record :=
  let '(content, logged) := load_file_content self file_path in
  match content with
  | None => ([], logged)
  | Some EmptyString => ([], logged)
  | Some content =>
      match process_content self file_path content with
      | Ok documents => (documents, logged)
      | Raise e =>
          ([], logged ++
               [Log ERROR ("Error processing " +:+ str file_path +:+ ": "
                           +:+ exn_text e)])
      end
  end.

(** ** [CleanArchitectureDocumentLoader.export_documents] *)

(** What [export_documents] uses of the [json] module and of the file
    system: [json.dump(v, f, indent=2, ensure_ascii=False)] as the text it
    writes, [json.dumps(v, ensure_ascii=False)], and the outcome of
    [open(output_path, 'w', encoding='utf-8')]. *)
Record ExportEnv : Type := {
  json_dump_indent2 : list value -> string;
  json_dumps : value -> string;
  open_write : Path -> result unit
}.

(** The [dict] that both branches build for a document. *)
Definition doc_data (doc : Document) : value :=
  VDict (<["page_content" := VStr (page_content doc)]>
         (<["metadata" := VDict (metadata doc)]> ∅))%string.

(** The text the [jsonl] branch writes: one [f.write] per document. *)
Fixpoint jsonl_text (env : ExportEnv) (documents : list Document) : string :=
  match documents with
  | [] => EmptyString
  | doc :: documents' =>
      (json_dumps env (doc_data doc) +:+ "\n") +:+ jsonl_text env documents'
  end.

(** [export_documents]: the text written to [output_path] ([None] when the
    file is not opened at all) and the records logged. *)
Definition export_documents (env : ExportEnv) (documents : list Document)
    (output_path : Path) (format : string)
    : result (option string * list log_record) :=
  let exported :=
    Log INFO ("Exported " +:+ str_of_int (Z.of_nat (List.length documents))
              +:+ " documents to " +:+ str output_path) in
  if String.eqb format "json" then
    let doc_data_list := map doc_data documents in
    open_write env output_path;;
    mret (Some (json_dump_indent2 env doc_data_list), [exported])
  else if String.eqb format "jsonl" then
    open_write env output_path;;
    mret (Some (jsonl_text env documents), [exported])
  else mret (None, [exported]).

(** The number of line feeds in a text. *)
Fixpoint count_LF (s : string) : nat :=
  match s with
  | EmptyString => O
  | String c s' => ((if Ascii.eqb c LF then 1 else 0) + count_LF s')%nat
  end.

(** ** [VectorDBManager] *)

Section VectorDB.
(** Python's [float]: embeddings are passed on, never computed with. *)
Context {float : Type}.

Record PointStruct : Type := {
  point_id : string;
  vector : list float;
  payload : gmap string value
}.

Inductive Distance : Set := COSINE.

Record VectorParams : Type := {
  params_size : Z;
  params_distance : Distance
}.

(** The requests this program sends to Qdrant and to Azure OpenAI. *)
Inductive call : Type :=
| delete_collection (collection_name : string)
| create_collection (collection_name : string) (vectors_config : VectorParams)
| upsert (collection_name : string) (points : list PointStruct)
| embeddings_create (input : list string) (model : string).

(** A [VectorDBManager] instance.  [client] is the [QdrantClient]: how the
    server answers a request after the requests sent so far.
    [embeddings_client] is [None] or the Azure client, which answers with
    the embeddings of [response.data]. *)
Record VectorDBManager : Type := {
  client : list call -> call -> result unit;
  collection_name : string;
  vector_size : Z;
  embeddings_client :
    option (list call -> list string -> string -> result (list (list float)))
}.

(** The state the methods act on: the requests sent and the records
    logged, both oldest first. *)
Record world : Type := mkWorld {
  calls : list call;
  logged : list log_record
}.

(** A method: it may raise, and it changes the world either way. *)
Definition M (A : Type) : Type := world -> result A * world.

#[global] Instance M_ret : MRet M := fun _ a w => (Ok a, w).

#[global] Instance M_bind : MBind M := fun _ _ k m w =>
  match m w with
  | (Ok a, w') => k a w'
  | (Raise e, w') => (Raise e, w')
  end.

Definition raise {A} (e : exn) : M A := fun w => (Raise e, w).

(** [try: body except Exception as e: handler e]. *)
Definition try_except {A} (body : M A) (handler : exn -> M A) : M A :=
  fun w =>
    match body w with
    | (Ok a, w') => (Ok a, w')
    | (Raise e, w') => handler e w'
    end.

Definition log (lvl : level) (msg : string) : M unit := fun w =>
  (Ok tt, {| calls := calls w; logged := logged w ++ [Log lvl msg] |}).

Definition qdrant (self : VectorDBManager) (c : call) : M unit := fun w =>
  (client self (calls w) c,
   {| calls := calls w ++ [c]; logged := logged w |}).

Definition azure
    (ec : list call -> list string -> string -> result (list (list float)))
    (input : list string) (model : string) : M (list (list float)) := fun w =>
  (ec (calls w) input model,
   {| calls := calls w ++ [embeddings_create input model];
      logged := logged w |}).

Definition create_embedding (self : VectorDBManager) (text model : string)
    : M (list float) :=
  match embeddings_client self with
  | None =>
      raise (ValueError
        "Azure AI Embeddings Client not initialized. Check your credentials.")
  | Some ec =>
      try_except
        (data ← azure ec [text] model;
         match data with
         | embedding :: _ =>
             log DEBUG ("Created embedding with "
                        +:+ str_of_int (Z.of_nat (List.length embedding))
                        +:+ " dimensions");;
             mret embedding
         | [] => raise (ValueError "No embedding data received from Azure AI")
         end)
        (fun e =>
           log ERROR ("Failed to create embedding: " +:+ exn_text e);;
           raise e)
  end.

Definition initialize_collection (self : VectorDBManager) : M unit :=
  try_except
    (qdrant self (delete_collection (collection_name self));;
     log INFO ("Deleted existing collection: " +:+ collection_name self))
    (fun e =>
       match e with
       | UnexpectedResponse _ => mret tt
       | _ => log WARNING ("Error deleting collection: " +:+ exn_text e)
       end);;
  qdrant self
    (create_collection (collection_name self)
       {| params_size := vector_size self; params_distance := COSINE |});;
  log INFO ("Created new collection: " +:+ collection_name self).

Definition add_document (self : VectorDBManager) (doc_id text : string)
    (embedding : option (list float)) (metadata : option (gmap string value))
    : M string :=
  let metadata := default ∅ metadata in
  embedding ← match embedding with
              | None => create_embedding self text "text-embedding-3-large"
              | Some embedding => mret embedding
              end;
  let full_metadata := <["document" := VStr text]> metadata in
  let point := {| point_id := doc_id;
                  vector := embedding;
                  payload := full_metadata |} in
  qdrant self (upsert (collection_name self) [point]);;
  log INFO ("Added document with ID: " +:+ doc_id);;
  mret doc_id.

Definition add_document_with_text (self : VectorDBManager)
    (doc_id text : string) (metadata : option (gmap string value))
    : M string :=
  add_document self doc_id text None metadata.
End VectorDB.

Arguments PointStruct : clear implicits.
Arguments call : clear implicits.
Arguments VectorDBManager : clear implicits.
Arguments world : clear implicits.
Arguments M : clear implicits.

(** The record, if any, that [initialize_collection] logs for the outcome
    of the deletion. *)
Definition deletion_log (collection_name : string) (outcome : result unit)
    : list log_record :=
  match outcome with
  | Ok _ => [Log INFO ("Deleted existing collection: " +:+ collection_name)]
  | Raise (UnexpectedResponse _) => []
  | Raise e => [Log WARNING ("Error deleting collection: " +:+ exn_text e)]
  end.

(** ** Stand-ins for the libraries, for running the code on examples *)

(** The pieces of [s] between the occurrences of [c]; [acc] is the piece
    being read, last character first. *)
Fixpoint split_on (c : ascii) (acc s : string) : list string :=
  match s with
  | EmptyString => [String.rev acc]
  | String d s' =>
      if Ascii.eqb c d then String.rev acc :: split_on c EmptyString s'
      else split_on c (String d acc) s'
  end.

(** A [Path] made from a slash-separated relative path. *)
Definition posix_path (s : string) : Path :=
  let components := split_on "/" EmptyString s in
  {| parts := components; name := List.last components EmptyString; str := s |}.

Definition sample_file : Path :=
  posix_path "work/CleanArchitecture-main/src/Foo.cs".

Definition sample_content : string :=
  "class Foo" +:+ newline +:+ "{ }".

Definition special_file : Path :=
  posix_path "work/CleanArchitecture-main/README.md".

Definition special_content : string :=
  "tokens" +:+ newline +:+ "<|endoftext|>".

(** A loader on a POSIX system whose tokenizer gives one token per
    character and refuses the text [<|endoftext|>], whose splitter cuts at
    line feeds, and which can read [sample_file] and [special_file]
    only. *)
Definition sample_loader : SimpleDirectoryLoader :=
  {| os := posix;
     tokenizer_encode := fun text =>
       if contains "<|endoftext|>" text
       then Raise (ValueError "disallowed special token")
       else Ok (map (fun c => Z.of_nat (nat_of_ascii c))
                    (list_ascii_of_string text));
     splitter_split_text := fun _ _ _ text => Ok (split_on LF EmptyString text);
     open_read := fun file_path =>
       if String.eqb (str file_path) (str sample_file) then Ok sample_content
       else if String.eqb (str file_path) (str special_file)
       then Ok special_content
       else Raise (OtherException "FileNotFoundError" "No such file or directory");
     Path_of_str := posix_path |}.

(** An export environment whose serialiser writes a fixed text for every
    value and whose files can always be opened. *)
Definition sample_export_env : ExportEnv :=
  {| json_dump_indent2 := fun vs =>
       "[" +:+ newline +:+ join ("," +:+ newline) (map (fun _ => "  {}"%string) vs)
       +:+ newline +:+ "]";
     json_dumps := fun _ => "{}"%string;
     open_write := fun _ => Ok tt |}.

Definition sample_documents : list Document :=
  [ {| page_content := "a"; metadata := ∅ |};
    {| page_content := "b"; metadata := ∅ |} ].

(** A manager whose Qdrant server refuses every deletion with the given
    exception and accepts every other request, without embeddings client;
    embeddings are lists of integers here. *)
Definition manager_failing_delete (e : exn) : VectorDBManager Z :=
  {| client := fun _ c =>
       match c with
       | delete_collection _ => Raise e
       | _ => Ok tt
       end;
     collection_name := "documents";
     vector_size := 3072;
     embeddings_client := None |}.

Definition empty_world : world Z := {| calls := []; logged := [] |}.

(** A manager whose Qdrant server accepts every request and whose
    embeddings client answers every request with the embedding [[1; 2]]. *)
Definition sample_manager : VectorDBManager Z :=
  {| client := fun _ _ => Ok tt;
     collection_name := "documents";
     vector_size := 3072;
     embeddings_client := Some (fun _ _ _ => Ok [[1; 2]]) |}.

(** ** [SimpleDirectoryLoader]: enumerating and loading files *)

(** [s.endswith(suffix)]: [suffix] is [s] or the end of a tail of [s]. *)
Fixpoint endswith (s suffix : string) : bool :=
  String.eqb s suffix ||
  match s with
  | EmptyString => false
  | String _ s' => endswith s' suffix
  end.

(** A classifier that looks at the end of the (case-normalised) file name
    only; [identify_file_type] is compared with it below. *)
Definition file_type_of_extension (file_name : string) : string :=
  if endswith file_name ".cs" then "csharp"
  else if endswith file_name ".csproj" || endswith file_name ".sln"
  then "project"
  else if endswith file_name ".json" || endswith file_name ".xml"
          || endswith file_name ".yml" || endswith file_name ".yaml"
  then "config"
  else if endswith file_name ".md" || endswith file_name ".rst"
          || endswith file_name ".txt"
  then "documentation"
  else if endswith file_name ".html" || endswith file_name ".css"
          || endswith file_name ".js" || endswith file_name ".ts"
  then "web"
  else "other".

(** The decidable form of [literal]. *)
Definition literalb (pat : string) : bool :=
  forallb (fun c => negb (Ascii.eqb c "*") && negb (Ascii.eqb c "?"))
    (list_ascii_of_string pat).

(** [len(self.tokenizer.encode(chunk))] for a chunk that the tokenizer
    accepts. *)
Definition token_count_of (self : SimpleDirectoryLoader) (chunk : string) : Z :=
  match tokenizer_encode self chunk with
  | Ok tokens => Z.of_nat (List.length tokens)
  | Raise _ => 0
  end.

(** The document that [process_file] builds for the chunk number [k] of
    [n]. *)
Definition chunk_document (self : SimpleDirectoryLoader) (file_path : Path)
    (n : nat) (k : nat) (chunk : string) : Document :=
  let m := {| source := source_path_of file_path;
              file_type := identify_file_type (os self) file_path;
              token_count := token_count_of self chunk;
              chunk_index := Z.of_nat k;
              total_chunks := Z.of_nat n |} in
  {| page_content := add_contextual_prefix self chunk m;
     metadata := asdict m |}.

(** The default of [include_patterns] in [get_files_to_process]. *)
Definition default_include_patterns : list string :=
  [ "*.cs"; "*.md"; "*.json"; "*.xml"; "*.txt"; "*.csproj"; "*.sln" ]%string.

(** The default of [exclude_patterns] in [get_files_to_process]. *)
Definition default_exclude_patterns : list string :=
  [ "**/bin/**"; "**/obj/**"; "**/.git/**"; "**/packages/**";
    "**/node_modules/**"; "**/.vs/**"; "**/wwwroot/lib/**" ]%string.

(** The loop over [exclude_patterns] that sets [should_exclude] and
    breaks at the first match. *)
Fixpoint should_exclude (os : os_flavour) (file_path_str : string)
    (exclude_patterns : list string) : bool :=
  match exclude_patterns with
  | [] => false
  | exclude_pattern :: exclude_patterns' =>
      if fnmatch os file_path_str exclude_pattern then true
      else should_exclude os file_path_str exclude_patterns'
  end.

(** The first loop of [get_files_to_process]: [all_files] is extended
    with [self.base_path.rglob(pattern)] for each pattern in turn. *)
Fixpoint all_files_of (rglob : string -> list Path)
    (include_patterns : list string) : list Path :=
  match include_patterns with
  | [] => []
  | pattern :: include_patterns' =>
      rglob pattern ++ all_files_of rglob include_patterns'
  end.

(** The second loop of [get_files_to_process]. *)
Fixpoint filtered_files_of (os : os_flavour) (exclude_patterns : list string)
    (all_files : list Path) : list Path :=
  match all_files with
  | [] => []
  | file_path :: all_files' =>
      if should_exclude os (str file_path) exclude_patterns
      then filtered_files_of os exclude_patterns all_files'
      else file_path :: filtered_files_of os exclude_patterns all_files'
  end.

(** [get_files_to_process]; [rglob] is [self.base_path.rglob], the file
    system seen from the base path. *)
Definition get_files_to_process (self : SimpleDirectoryLoader)
    (rglob : string -> list Path)
    (include_patterns exclude_patterns : option (list string)) : list Path :=
  let include_patterns := default default_include_patterns include_patterns in
  let exclude_patterns := default default_exclude_patterns exclude_patterns in
  let all_files := all_files_of rglob include_patterns in
  filtered_files_of (os self) exclude_patterns all_files.

(** The loop of [load_documents] over the completed futures: the
    documents of each file are appended to [all_documents]. *)
Fixpoint all_documents_of (self : SimpleDirectoryLoader)
    (completed : list Path) : list Document :=
  match completed with
  | [] => []
  | file_path :: completed' =>
      (process_file self file_path).1 ++ all_documents_of self completed'
  end.

(** [load_documents], as the list it returns.  One future per file is
    submitted to the pool; [as_completed] gives the files in the order in
    which their futures complete, which the scheduler decides.  The log
    and the progress bar are left out. *)
Definition load_documents (self : SimpleDirectoryLoader)
    (rglob : string -> list Path) (as_completed : list Path -> list Path)
    (include_patterns exclude_patterns : option (list string))
    : list Document :=
  let files_to_process :=
    get_files_to_process self rglob include_patterns exclude_patterns in
  all_documents_of self (as_completed files_to_process).

(** ** [VectorDBManager]: updating and searching *)

Section VectorDBSearch.
Context {float : Type}.

Definition update_document (self : VectorDBManager float)
    (doc_id document : string) (embedding : list float)
    (metadata : gmap string value) : M float unit :=
  let full_metadata := <["document" := VStr document]> metadata in
  let point := {| point_id := doc_id;
                  vector := embedding;
                  payload := full_metadata |} in
  qdrant self (upsert (collection_name self) [point]);;
  log INFO ("Updated document with ID: " +:+ doc_id).

(** A point identifier of Qdrant: an integer or a string. *)
Inductive point_ident : Type :=
| IdInt (n : Z)
| IdStr (s : string).

(** [str(result.id)]. *)
Definition str_of_ident (i : point_ident) : string :=
  match i with
  | IdInt n => str_of_int n
  | IdStr s => s
  end.

(** A search result ([ScoredPoint]), as [search_similar] reads it; the
    payload is optional in the client's model. *)
Record ScoredPoint : Type := {
  result_id : point_ident;
  result_score : float;
  result_payload : option (gmap string value)
}.

Record FieldCondition : Type := {
  condition_key : string;
  condition_match : value   (* MatchValue(value=...) *)
}.

Record Filter : Type := { must : list FieldCondition }.

(** [self.client.search]: the answer of the server to a search in a
    collection for a query vector, a limit and a filter. *)
Definition search_client : Type :=
  string -> list float -> Z -> option Filter -> result (list ScoredPoint).

(** The dictionary that [search_similar] returns, by its four keys; each
    holds a list of one list. *)
Record SearchOutput : Type := {
  out_documents : list (list value);
  out_metadatas : list (list (gmap string value));
  out_score : list (list float);
  out_ids : list (list string)
}.

(** The [conditions] built from the items of [filter_conditions], a
    [dict] given by its items in order. *)
Definition conditions_of (filter_conditions : list (string * value))
    : list FieldCondition :=
  map (fun '(key, value) =>
         {| condition_key := key; condition_match := value |})
      filter_conditions.

(** [query_filter] of [search_similar]. *)
Definition query_filter_of (filter_conditions : option (list (string * value)))
    : option Filter :=
  match filter_conditions with
  | None => None
  | Some [] => None
  | Some items => Some {| must := conditions_of items |}
  end.

(** The loop of [search_similar] over the results: the four lists it
    fills, or the [AttributeError] of [payload.get] on a missing
    payload. *)
Fixpoint format_results (search_results : list ScoredPoint)
    : result (list value * list (gmap string value) * list float * list string) :=
  match search_results with
  | [] => mret ([], [], [], [])
  | r :: search_results' =>
      match result_payload r with
      | None =>
          Raise (OtherException "AttributeError"
                   "'NoneType' object has no attribute 'get'")
      | Some payload =>
          let document := default (VStr EmptyString) (payload !! "document"%string) in
          let metadata := delete "document"%string payload in
          '(documents, metadatas, distances, ids) ← format_results search_results';
          mret (document :: documents, metadata :: metadatas,
                result_score r :: distances,
                str_of_ident (result_id r) :: ids)
      end
  end.

(** [search_similar]; the search request is a read and is not recorded
    among the [calls]. *)
Definition search_similar (self : VectorDBManager float)
    (search : search_client) (query_embedding : list float) (n_results : Z)
    (filter_conditions : option (list (string * value)))
    : M float SearchOutput := fun w =>
  let query_filter := query_filter_of filter_conditions in
  (search_results ← search (collection_name self) query_embedding n_results
                      query_filter;
   '(documents, metadatas, distances, ids) ← format_results search_results;
   mret {| out_documents := [documents];
           out_metadatas := [metadatas];
           out_score := [distances];
           out_ids := [ids] |},
   w).

Definition search_similar_by_text (self : VectorDBManager float)
    (search : search_client) (query_text : string) (n_results : Z)
    (filter_conditions : option (list (string * value)))
    : M float SearchOutput :=
  query_embedding ← create_embedding self query_text "text-embedding-3-large";
  search_similar self search query_embedding n_results filter_conditions.

(** The points of the upsert requests among some requests, oldest
    first. *)
Fixpoint upserted_points (requests : list (call float))
    : list (PointStruct float) :=
  match requests with
  | [] => []
  | upsert _ points :: requests' => points ++ upserted_points requests'
  | _ :: requests' => upserted_points requests'
  end.

(** The search result that Qdrant gives for a stored point. *)
Definition scored (score : float) (p : PointStruct float) : ScoredPoint :=
  {| result_id := IdStr (point_id p);
     result_score := score;
     result_payload := Some (payload p) |}.
End VectorDBSearch.

Arguments ScoredPoint : clear implicits.
Arguments SearchOutput : clear implicits.
Arguments search_client : clear implicits.

(** ** [initialize_vector_db.py] *)

Module InitializeVectorDb.
Section LoadDocuments.
Context {float : Type}.

(** An element of the JSON file, as [export_documents] writes them: a
    [dict] whose key [page_content] holds a string and whose key
    [metadata] holds a [dict]; either key may be missing. *)
Record exported_doc : Type := {
  doc_page_content : option string;
  doc_metadata : option (gmap string value)
}.

(** The loop of [load_documents] from the document number [k] on;
    [uuid4 k] is the identifier that [str(uuid.uuid4())] gives for it. *)
Fixpoint upload (db_manager : VectorDBManager float) (uuid4 : nat -> string)
    (k : nat) (documents : list exported_doc) : M float unit :=
  match documents with
  | [] => mret tt
  | doc :: documents' =>
      let text := default EmptyString (doc_page_content doc) in
      let metadata := default ∅ (doc_metadata doc) in
      let doc_id := uuid4 k in
      add_document_with_text db_manager doc_id text (Some metadata);;
      upload db_manager uuid4 (S k) documents'
  end.

(** [load_documents(json_path, collection_name, recreate)]: [db_manager]
    is the manager made for [collection_name], [json_file] the outcome of
    opening and parsing [json_path].  What is printed is left out. *)
Definition load_documents (db_manager : VectorDBManager float)
    (json_file : result (list exported_doc)) (recreate : bool)
    (uuid4 : nat -> string) : M float unit :=
  (if recreate then initialize_collection db_manager else mret tt);;
  documents ← (fun w => (json_file, w)) : M float (list exported_doc);
  upload db_manager uuid4 0 documents.
End LoadDocuments.
End InitializeVectorDb.

Arguments InitializeVectorDb.exported_doc : clear implicits.

(** The directory markers of [default_exclude_patterns]. *)
Definition excluded_directories : list string :=
  [ "/bin/"; "/obj/"; "/.git/"; "/packages/"; "/node_modules/"; "/.vs/";
    "/wwwroot/lib/" ]%string.

(** A file system seen through [rglob]: three paths, of which a pattern
    gives those whose name it matches. *)
Definition sample_rglob (pattern : string) : list Path :=
  List.filter (fun p => fnmatch posix (name p) pattern)
    [ sample_file; special_file;
      posix_path "work/CleanArchitecture-main/bin/Debug/Gen.cs" ].

(** ** Notions for the vector store properties *)

(** The point that [add_document] and [update_document] send for an
    identifier, a text, an embedding and a metadata [dict]. *)
Definition stored_point {float : Type} (doc_id text : string)
    (embedding : list float) (metadata : gmap string value)
    : PointStruct float :=
  {| point_id := doc_id;
     vector := embedding;
     payload := <["document" := VStr text]> metadata |}.

(** A stored point that a search finds, with its score. *)
Record hit (float : Type) : Type := {
  hit_score : float;
  hit_id : string;
  hit_text : string;
  hit_vector : list float;
  hit_metadata : gmap string value
}.
Arguments hit_score {float} h.
Arguments hit_id {float} h.
Arguments hit_text {float} h.
Arguments hit_vector {float} h.
Arguments hit_metadata {float} h.

Definition scored_hit {float : Type} (h : hit float) : ScoredPoint float :=
  scored (hit_score h)
    (stored_point (hit_id h) (hit_text h) (hit_vector h) (hit_metadata h)).

(** The identifier and the payload of a point. *)
Definition id_payload {float : Type} (p : PointStruct float)
    : string * gmap string value :=
  (point_id p, payload p).

(** What [load_documents] of [initialize_vector_db.py] stores for the
    document number [k] of the file. *)
Definition uploaded (uuid4 : nat -> string) (k : nat)
    (doc : InitializeVectorDb.exported_doc) : string * gmap string value :=
  (uuid4 k,
   <["document" := VStr (default EmptyString (InitializeVectorDb.doc_page_content doc))]>
     (default ∅ (InitializeVectorDb.doc_metadata doc))).

(** A search client that finds one stored point, whatever the query. *)
Definition sample_search : search_client Z := fun _ _ _ _ =>
  Ok [ scored_hit {| hit_score := 9; hit_id := "id-1"; hit_text := "fresh";
                     hit_vector := [1; 2];
                     hit_metadata := <["source" := VStr "Foo.cs"]> ∅ |} ].

(** Two elements of an exported file, the second without its keys. *)
Definition sample_exported : list InitializeVectorDb.exported_doc :=
  [ {| InitializeVectorDb.doc_page_content := Some "first"%string;
       InitializeVectorDb.doc_metadata := Some (<["chunk_index" := VInt 0]> ∅) |};
    {| InitializeVectorDb.doc_page_content := None;
       InitializeVectorDb.doc_metadata := None |} ].

Definition sample_uuid4 (k : nat) : string :=
  "id-" +:+ str_of_int (Z.of_nat k).

(** * Properties *)

(** ** Strings *)

Lemma append_nil (s : string) : EmptyString +:+ s = s.
Proof. reflexivity. Qed.

Lemma append_cons (c : ascii) (s t : string) :
  String c s +:+ t = String c (s +:+ t).
Proof. reflexivity. Qed.

(** ** [fnmatch] *)

Lemma fnmatchcase_pat_star pat s :
  fnmatchcase_pat (String "*" pat) s =
  fnmatchcase_pat pat s ||
  match s with
  | EmptyString => false
  | String _ s' => fnmatchcase_pat (String "*" pat) s'
  end.
Proof. destruct s; reflexivity. Qed.

Lemma literal_cons c pat :
  literal (String c pat) -> (c <> "*"%char /\ c <> "?"%char) /\ literal pat.
Proof.
  intros H; split; [apply H; now left|].
  intros d Hd; apply H; now right.
Qed.

Lemma fnmatchcase_pat_literal_cons c pat s :
  c <> "*"%char -> c <> "?"%char ->
  fnmatchcase_pat (String c pat) s =
  match s with
  | EmptyString => false
  | String d s' => Ascii.eqb c d && fnmatchcase_pat pat s'
  end.
Proof.
  intros H1 H2; cbn [fnmatchcase_pat].
  apply Ascii.eqb_neq in H1, H2; now rewrite H1, H2.
Qed.

(** A literal pattern matches itself and nothing else. *)
Lemma fnmatchcase_pat_literal lit s :
  literal lit -> fnmatchcase_pat lit s = true <-> s = lit.
Proof.
  revert s; induction lit as [|c lit IH]; intros s Hlit.
  - destruct s; cbn; split; congruence.
  - apply literal_cons in Hlit as [[H1 H2] Hlit].
    rewrite fnmatchcase_pat_literal_cons by assumption.
    destruct s as [|d s]; [split; congruence|].
    rewrite andb_true_iff, Ascii.eqb_eq, IH by assumption.
    split; [intros [-> ->]; reflexivity | intros [= -> ->]; now split].
Qed.

(** Whatever a pattern that ends in a literal matches ends in that
    literal. *)
Lemma fnmatchcase_pat_suffix pat lit s :
  literal lit -> fnmatchcase_pat (pat +:+ lit) s = true ->
  exists s0, s = s0 +:+ lit.
Proof.
  intros Hlit; revert s; induction pat as [|c pat IH]; intros s.
  - rewrite append_nil; intros H.
    apply fnmatchcase_pat_literal in H; [|assumption].
    exists EmptyString; now subst.
  - rewrite append_cons.
    destruct (Ascii.eqb_spec c "*") as [->|Hstar].
    + induction s as [|d s IHs]; rewrite fnmatchcase_pat_star, orb_true_iff.
      * intros [H|H]; [now apply IH | discriminate].
      * intros [H|H]; [now apply IH|].
        destruct (IHs H) as [s0 ->]; now exists (String d s0).
    + cbn [fnmatchcase_pat].
      apply Ascii.eqb_neq in Hstar; rewrite Hstar.
      destruct (Ascii.eqb c "?"); destruct s as [|d s]; try discriminate.
      * intros H; destruct (IH _ H) as [s0 ->]; now exists (String d s0).
      * rewrite andb_true_iff; intros [_ H].
        destruct (IH _ H) as [s0 ->]; now exists (String d s0).
Qed.

(** A leading [*] absorbs any prefix. *)
Lemma fnmatchcase_pat_star_prefix pat s0 s :
  fnmatchcase_pat pat s = true ->
  fnmatchcase_pat (String "*" pat) (s0 +:+ s) = true.
Proof.
  intros H; induction s0 as [|d s0 IH];
    rewrite ?append_nil, ?append_cons, fnmatchcase_pat_star.
  - now rewrite H.
  - rewrite IH; apply orb_true_r.
Qed.

Lemma literal_dot_cs : literal ".cs".
Proof.
  intros c [<-|[<-|[<-|[]]]]; split; discriminate.
Qed.

(** Every name that a pattern ending in [.cs] matches is matched by
    [*.cs]. *)
Lemma dot_cs_pattern pat s :
  fnmatchcase_pat (pat +:+ ".cs") s = true -> fnmatchcase_pat "*.cs" s = true.
Proof.
  intros H.
  destruct (fnmatchcase_pat_suffix _ _ _ literal_dot_cs H) as [s0 ->].
  apply fnmatchcase_pat_star_prefix.
  now apply fnmatchcase_pat_literal; [apply literal_dot_cs|].
Qed.

Lemma late_cs_pattern_is_csharp os file_name pat :
  In pat late_cs_patterns ->
  fnmatch os file_name pat = true -> fnmatch os file_name "*.cs" = true.
Proof.
  unfold fnmatch, fnmatchcase.
  replace (normcase os "*.cs") with "*.cs"%string by now destruct os.
  intros Hin; revert Hin; generalize (normcase os file_name); intros s.
  cbn [late_cs_patterns In].
  intros [<-|[<-|[<-|[<-|[<-|[]]]]]]; destruct os;
    [ apply (dot_cs_pattern "*test*") | apply (dot_cs_pattern "*test*")
    | apply (dot_cs_pattern "*Test*") | apply (dot_cs_pattern "*test*")
    | apply (dot_cs_pattern "*Tests*") | apply (dot_cs_pattern "*tests*")
    | apply (dot_cs_pattern "*Migration*") | apply (dot_cs_pattern "*migration*")
    | apply (dot_cs_pattern "*migration*") | apply (dot_cs_pattern "*migration*") ].
Qed.

(** ** The file classifier *)

Lemma first_matching_type_in os file_name table file_type :
  first_matching_type os file_name table = Some file_type ->
  In file_type (map fst table).
Proof.
  induction table as [|[ft ps] table IH]; cbn; [discriminate|].
  destruct (matches_any os file_name ps); [intros [= ->]; now left|].
  intros H; right; now apply IH.
Qed.

Lemma first_matching_type_split os file_name before file_type patterns after :
  matches_any os file_name patterns = true ->
  (forall ft ps, In (ft, ps) before -> matches_any os file_name ps = false) ->
  first_matching_type os file_name (before ++ (file_type, patterns) :: after)
  = Some file_type.
Proof.
  intros Hm; induction before as [|[ft ps] before IH]; intros Hb; cbn.
  - now rewrite Hm.
  - rewrite (Hb ft ps) by now left.
    apply IH; intros ft' ps' Hin; apply (Hb ft' ps'); now right.
Qed.

Lemma first_matching_type_none os file_name table :
  first_matching_type os file_name table = None <->
  (forall ft ps pat, In (ft, ps) table -> In pat ps ->
                     fnmatch os file_name pat = false).
Proof.
  induction table as [|[ft ps] table IH]; cbn.
  - split; [intros _ ? ? ? [] | reflexivity].
  - destruct (matches_any os file_name ps) eqn:Hm.
    + split; [discriminate|]; intros H.
      unfold matches_any in Hm; apply existsb_exists in Hm as (pat & Hin & Hp).
      rewrite (H ft ps pat) in Hp; [discriminate | now left | assumption].
    + rewrite IH; split; intros H ft' ps' pat.
      * intros [[= <- <-]|Hin] Hpat; [|now apply (H ft' ps')].
        unfold matches_any in Hm.
        destruct (fnmatch os file_name pat) eqn:Hp; [|reflexivity].
        rewrite <- Hm; symmetry; apply existsb_exists; now exists pat.
      * intros Hin; apply (H ft' ps'); now right.
Qed.

Lemma other_is_no_pattern_category :
  ~ In "other"%string (map fst FILE_TYPE_PATTERNS).
Proof.
  cbn; intros H; repeat (destruct H as [H|H]; [discriminate H|]); exact H.
Qed.

Lemma identify_file_type_some os file_path file_type :
  first_matching_type os (name file_path) FILE_TYPE_PATTERNS = Some file_type ->
  identify_file_type os file_path = file_type.
Proof. unfold identify_file_type; now intros ->. Qed.

(** C2. [identify_file_type] returns one category of the fixed set; the
    category it returns is the earliest one of [FILE_TYPE_PATTERNS] that has
    a pattern matching the name; and it returns [other] exactly when no
    pattern of any category matches. *)
Theorem identify_file_type_first_match (os : os_flavour) (file_path : Path) :
  In (identify_file_type os file_path) categories
  /\ (forall before file_type patterns after,
        FILE_TYPE_PATTERNS = before ++ (file_type, patterns) :: after ->
        matches_any os (name file_path) patterns = true ->
        (forall ft ps, In (ft, ps) before ->
                       matches_any os (name file_path) ps = false) ->
        identify_file_type os file_path = file_type)
  /\ (identify_file_type os file_path = "other"%string <->
      forall ft ps pat, In (ft, ps) FILE_TYPE_PATTERNS -> In pat ps ->
                        fnmatch os (name file_path) pat = false).
Proof.
  split; [|split].
  - unfold identify_file_type.
    destruct (first_matching_type _ _ _) as [t|] eqn:Hf.
    + apply first_matching_type_in in Hf.
      change categories with (map fst FILE_TYPE_PATTERNS ++ ["other"%string]).
      apply in_or_app; now left.
    + change categories with (map fst FILE_TYPE_PATTERNS ++ ["other"%string]).
      apply in_or_app; right; now left.
  - intros before file_type patterns after Htable Hm Hbefore.
    apply identify_file_type_some; rewrite Htable.
    now apply first_matching_type_split.
  - rewrite <- first_matching_type_none; unfold identify_file_type.
    destruct (first_matching_type _ _ _) as [t|] eqn:Hf; [|tauto].
    split; [|discriminate]; intros ->.
    apply first_matching_type_in in Hf.
    now apply other_is_no_pattern_category in Hf.
Qed.

(** The categories [test] and [migration] are listed after [csharp], whose
    pattern matches whatever theirs match. *)
Lemma late_cs_category_is_csharp os file_path pat :
  In pat late_cs_patterns ->
  fnmatch os (name file_path) pat = true ->
  identify_file_type os file_path = "csharp"%string.
Proof.
  intros Hin Hp.
  apply (late_cs_pattern_is_csharp _ _ _ Hin) in Hp.
  apply identify_file_type_some.
  apply (first_matching_type_split _ _ [] "csharp"%string ["*.cs"%string]).
  - unfold matches_any; cbn [existsb]; now rewrite Hp.
  - intros ? ? [].
Qed.

Lemma first_matching_type_match os file_name table file_type :
  first_matching_type os file_name table = Some file_type ->
  exists patterns pat,
    In (file_type, patterns) table /\ In pat patterns
    /\ fnmatch os file_name pat = true.
Proof.
  induction table as [|[ft ps] table IH]; cbn; [discriminate|].
  destruct (matches_any os file_name ps) eqn:Hm.
  - intros [= ->]; unfold matches_any in Hm.
    apply existsb_exists in Hm as (pat & Hin & Hp).
    exists ps, pat; repeat split; auto.
  - intros H; destruct (IH H) as (ps' & pat & Hin & Hpat & Hp).
    exists ps', pat; repeat split; auto.
Qed.

(** C9. [identify_file_type] never returns [test] or [migration]: a name
    that a pattern of these two categories matches is matched by [*.cs] and
    is classified [csharp]. *)
Theorem test_and_migration_unreachable (os : os_flavour) (file_path : Path) :
  (identify_file_type os file_path <> "test"%string
   /\ identify_file_type os file_path <> "migration"%string)
  /\ (forall file_type patterns pat,
        In (file_type, patterns) FILE_TYPE_PATTERNS ->
        file_type = "test"%string \/ file_type = "migration"%string ->
        In pat patterns ->
        fnmatch os (name file_path) pat = true ->
        fnmatch os (name file_path) "*.cs" = true
        /\ identify_file_type os file_path = "csharp"%string).
Proof.
  assert (Hlate : forall file_type patterns pat,
             In (file_type, patterns) FILE_TYPE_PATTERNS ->
             file_type = "test"%string \/ file_type = "migration"%string ->
             In pat patterns -> In pat late_cs_patterns).
  { intros ft ps pat Hin Hft Hpat; cbn in Hin.
    repeat (destruct Hin as [[= <- <-]|Hin];
            [destruct Hft; try discriminate|]); try contradiction;
      cbn in Hpat |- *; tauto. }
  assert (Hnot : forall file_type,
             file_type = "test"%string \/ file_type = "migration"%string ->
             identify_file_type os file_path <> file_type).
  { intros ft Hft Heq; unfold identify_file_type in Heq.
    destruct (first_matching_type _ _ _) as [t|] eqn:Hf;
      [|destruct Hft; subst; discriminate].
    subst t.
    destruct (first_matching_type_match _ _ _ _ Hf) as (ps & pat & Hin & Hpat & Hp).
    pose proof (late_cs_category_is_csharp os file_path pat
                  (Hlate _ _ _ Hin Hft Hpat) Hp) as Hcs.
    unfold identify_file_type in Hcs; rewrite Hf in Hcs.
    destruct Hft; subst; discriminate. }
  split; [split; apply Hnot; auto|].
  intros ft ps pat Hin Hft Hpat Hp; split.
  - now apply (late_cs_pattern_is_csharp os _ pat); [apply (Hlate ft ps)|].
  - now apply (late_cs_category_is_csharp os _ pat); [apply (Hlate ft ps)|].
Qed.

(** ** The metadata builder *)

Lemma prefix_append needle hay :
  String.prefix needle hay = true <-> exists post, hay = needle +:+ post.
Proof.
  revert hay; induction needle as [|c needle IH]; intros hay.
  - split; [exists hay; reflexivity | now destruct hay].
  - destruct hay as [|d hay]; cbn [String.prefix].
    + split; [discriminate | intros [post H]; discriminate H].
    + destruct (ascii_dec c d) as [->|Hne].
      * rewrite IH; split; intros [post H]; exists post.
        -- rewrite append_cons; now f_equal.
        -- rewrite append_cons in H; now injection H.
      * split; [discriminate|]; intros [post H].
        rewrite append_cons in H; injection H as H _; congruence.
Qed.

(** [contains needle hay] is Python's [needle in hay]. *)
Lemma contains_substring needle hay :
  contains needle hay = true <->
  exists pre post, hay = pre +:+ needle +:+ post.
Proof.
  induction hay as [|d hay IH]; cbn [contains]; rewrite orb_true_iff, prefix_append.
  - split.
    + intros [[post H]|H]; [|discriminate]; now exists EmptyString, post.
    + intros ([|c pre] & post & H); [left; now exists post | discriminate H].
  - rewrite IH; split.
    + intros [[post H]|(pre & post & H)]; [now exists EmptyString, post|].
      exists (String d pre), post; rewrite append_cons; now f_equal.
    + intros ([|c pre] & post & H); [left; now exists post|].
      rewrite append_cons in H; injection H as _ H; right; now exists pre, post.
Qed.

Lemma first_index_split {A} (p : A -> bool) before x after :
  p x = true -> (forall y, In y before -> p y = false) ->
  first_index p (before ++ x :: after) = Some (List.length before).
Proof.
  intros Hx; induction before as [|y before IH]; intros Hb; cbn.
  - now rewrite Hx.
  - rewrite (Hb y) by now left.
    rewrite IH; [reflexivity|]; intros z Hz; apply Hb; now right.
Qed.

Lemma first_index_none {A} (p : A -> bool) l :
  (forall y, In y l -> p y = false) -> first_index p l = None.
Proof.
  induction l as [|y l IH]; intros Hl; cbn; [reflexivity|].
  rewrite (Hl y) by now left.
  rewrite IH; [reflexivity|]; intros z Hz; apply Hl; now right.
Qed.

Lemma skipn_length_app {A} (before after : list A) :
  skipn (List.length before) (before ++ after) = after.
Proof. induction before; cbn; auto. Qed.

Lemma create_enhanced_metadata_ok self file_path content chunk_index total_chunks tokens :
  tokenizer_encode self content = Ok tokens ->
  create_enhanced_metadata self file_path content chunk_index total_chunks =
  Ok {| source := source_path_of file_path;
        file_type := identify_file_type (os self) file_path;
        token_count := Z.of_nat (List.length tokens);
        chunk_index := chunk_index;
        total_chunks := total_chunks |}.
Proof. unfold create_enhanced_metadata; now intros ->. Qed.

Lemma create_enhanced_metadata_inv self file_path content i n m :
  create_enhanced_metadata self file_path content i n = Ok m ->
  source m = source_path_of file_path
  /\ file_type m = identify_file_type (os self) file_path
  /\ chunk_index m = i /\ total_chunks m = n.
Proof.
  unfold create_enhanced_metadata.
  destruct (tokenizer_encode self content); cbn; [|discriminate].
  intros [= <-]; cbn; auto.
Qed.

Lemma create_enhanced_metadata_raise self file_path content i n e :
  tokenizer_encode self content = Raise e ->
  create_enhanced_metadata self file_path content i n = Raise e.
Proof. unfold create_enhanced_metadata; now intros ->. Qed.

(** C6. Whenever the tokenizer accepts the content,
    [create_enhanced_metadata] returns a record whose [source] is the
    components of the path from the first one that contains
    [CleanArchitecture] on, joined with a backslash, when there is such a
    component, and [str(file_path)] when there is none; two calls on the
    same path give the same [source], whatever their other arguments. *)
Theorem create_enhanced_metadata_source
    (self : SimpleDirectoryLoader) (file_path : Path) (content : string)
    (chunk_index total_chunks : Z) (tokens : list Z) :
  tokenizer_encode self content = Ok tokens ->
  exists m,
    create_enhanced_metadata self file_path content chunk_index total_chunks
    = Ok m
    /\ (forall before part after,
          parts file_path = before ++ part :: after ->
          contains "CleanArchitecture" part = true ->
          (forall p, In p before -> contains "CleanArchitecture" p = false) ->
          source m = join "\" (part :: after))
    /\ ((forall p, In p (parts file_path) ->
                   contains "CleanArchitecture" p = false) ->
        source m = str file_path)
    /\ (forall self' content' chunk_index' total_chunks' m',
          create_enhanced_metadata self' file_path content' chunk_index'
            total_chunks' = Ok m' ->
          source m' = source m).
Proof.
  intros Htok; eexists; split;
    [apply (create_enhanced_metadata_ok _ _ _ _ _ _ Htok)|cbn [source]].
  unfold source_path_of; repeat split.
  - intros before part after -> Hpart Hbefore.
    rewrite (first_index_split _ _ _ _ Hpart Hbefore).
    now rewrite skipn_length_app.
  - intros Hnone; now rewrite (first_index_none _ _ Hnone).
  - intros self' content' i' n' m' H.
    now apply create_enhanced_metadata_inv in H as [-> _].
Qed.

Lemma create_enhanced_metadata_source_witness :
  exists m,
    create_enhanced_metadata sample_loader sample_file "class Foo" 0 2 = Ok m
    /\ source m = "CleanArchitecture-main\src\Foo.cs"%string.
Proof.
  destruct (create_enhanced_metadata_source sample_loader sample_file
              "class Foo" 0 2 [99; 108; 97; 115; 115; 32; 70; 111; 111]
              eq_refl) as (m & Hm & Hsource & _).
  exists m; split; [exact Hm|].
  apply (Hsource ["work"%string] "CleanArchitecture-main"%string
           ["src"; "Foo.cs"]%string); [reflexivity|reflexivity|].
  intros p [<-|[]]; reflexivity.
Defined.

(** ** The file processor *)

Lemma asdict_chunk_index m :
  asdict m !! "chunk_index"%string = Some (VInt (chunk_index m)).
Proof. unfold asdict; now simplify_map_eq. Qed.

Lemma asdict_total_chunks m :
  asdict m !! "total_chunks"%string = Some (VInt (total_chunks m)).
Proof. unfold asdict; now simplify_map_eq. Qed.

(** What the loop of [process_file] returns when no iteration raises: one
    document per chunk, numbered from the start index on, each with the
    [total_chunks] it was given. *)
Lemma process_chunks_ok self file_path n (j : nat) chunks documents :
  process_chunks self file_path n (Z.of_nat j) chunks = Ok documents ->
  List.length documents = List.length chunks
  /\ map (metadata_int "chunk_index") documents
     = map (fun k => Some (Z.of_nat k)) (seq j (List.length documents))
  /\ Forall (fun d => metadata_int "total_chunks" d = Some n) documents.
Proof.
  revert j documents; induction chunks as [|chunk chunks IH]; intros j documents.
  - intros [= <-]; cbn; auto.
  - cbn [process_chunks].
    destruct (create_enhanced_metadata self file_path chunk (Z.of_nat j) n)
      as [m|e] eqn:Hm; cbn; [|discriminate].
    replace (Z.of_nat j + 1) with (Z.of_nat (S j)) by lia.
    destruct (process_chunks self file_path n (Z.of_nat (S j)) chunks)
      as [ds|e] eqn:Hds; cbn; [|discriminate].
    intros [= <-].
    apply create_enhanced_metadata_inv in Hm as (_ & _ & Hi & Hn).
    destruct (IH _ _ Hds) as (Hlen & Hidx & Htot).
    cbn [List.length map seq]; repeat split.
    + now rewrite Hlen.
    + rewrite Hidx; f_equal.
      unfold metadata_int; cbn [metadata].
      now rewrite asdict_chunk_index, Hi.
    + constructor; [|exact Htot].
      unfold metadata_int; cbn [metadata].
      now rewrite asdict_total_chunks, Hn.
Qed.

(** The loop raises as soon as the tokenizer refuses one chunk. *)
Lemma process_chunks_raise self file_path n i chunks chunk e :
  In chunk chunks -> tokenizer_encode self chunk = Raise e ->
  exists e', process_chunks self file_path n i chunks = Raise e'.
Proof.
  intros Hin He; revert i; induction chunks as [|c chunks IH]; intros i;
    [destruct Hin|].
  cbn [process_chunks].
  destruct (create_enhanced_metadata self file_path c i n) as [m|e0] eqn:Hm;
    cbn; [|now exists e0].
  destruct Hin as [->|Hin].
  - now rewrite (create_enhanced_metadata_raise _ _ _ _ _ _ He) in Hm.
  - destruct (IH Hin (i + 1)) as [e' ->]; now exists e'.
Qed.

(** The loop returns when the tokenizer accepts every chunk. *)
Lemma process_chunks_total self file_path n i chunks :
  (forall chunk, In chunk chunks ->
                 exists tokens, tokenizer_encode self chunk = Ok tokens) ->
  exists documents, process_chunks self file_path n i chunks = Ok documents.
Proof.
  revert i; induction chunks as [|c chunks IH]; intros i Hall;
    [now exists []|].
  cbn [process_chunks].
  destruct (Hall c) as [tokens Hc]; [now left|].
  rewrite (create_enhanced_metadata_ok _ _ _ _ _ _ Hc); cbn.
  destruct (IH (i + 1)) as [ds ->]; [intros; apply Hall; now right|].
  cbn; eauto.
Qed.

(** [process_file] returns no document, or the documents of the loop over
    the chunks of the content. *)
Lemma process_file_cases self file_path :
  (process_file self file_path).1 = []
  \/ exists content chunks,
       open_read self file_path = Ok content
       /\ chunk_content self content 1000 100 = Ok chunks
       /\ process_chunks self file_path (Z.of_nat (List.length chunks)) 0 chunks
          = Ok (process_file self file_path).1.
Proof.
  unfold process_file, load_file_content, process_content.
  destruct (open_read self file_path) as [content|e]; [|now left].
  destruct content as [|c content]; [now left|].
  destruct (chunk_content self (String c content) 1000 100) as [chunks|e]
    eqn:Hsplit; cbn; [|now left].
  destruct (process_chunks self file_path _ 0 chunks) as [ds|e] eqn:Hds;
    cbn; [|now left].
  right; exists (String c content), chunks; auto.
Qed.

(** A readable, non-empty file whose chunks the tokenizer accepts gives
    one document per chunk. *)
Lemma process_file_one_document_per_chunk self file_path content chunks :
  open_read self file_path = Ok content -> content <> EmptyString ->
  chunk_content self content 1000 100 = Ok chunks ->
  (forall chunk, In chunk chunks ->
                 exists tokens, tokenizer_encode self chunk = Ok tokens) ->
  List.length (process_file self file_path).1 = List.length chunks.
Proof.
  intros Hopen Hne Hsplit Hall.
  unfold process_file, load_file_content, process_content.
  rewrite Hopen; destruct content as [|c content]; [congruence|].
  rewrite Hsplit; cbn.
  destruct (process_chunks_total self file_path
              (Z.of_nat (List.length chunks)) 0 chunks Hall) as [ds Hds].
  rewrite Hds; cbn.
  now apply (process_chunks_ok _ _ _ 0) in Hds.
Qed.

(** C3. The documents that [process_file] returns for a file, [N] of them,
    carry the [chunk_index] values [0], ..., [N-1] in this order, all carry
    [total_chunks = N], and in each [chunk_index < total_chunks]. *)
Theorem process_file_chunk_numbering
    (self : SimpleDirectoryLoader) (file_path : Path) :
  let documents := (process_file self file_path).1 in
  let N := List.length documents in
  map (metadata_int "chunk_index") documents
  = map (fun k => Some (Z.of_nat k)) (seq 0 N)
  /\ Forall (fun d => metadata_int "total_chunks" d = Some (Z.of_nat N))
       documents
  /\ Forall (fun d => exists i n,
                 metadata_int "chunk_index" d = Some i
                 /\ metadata_int "total_chunks" d = Some n
                 /\ 0 <= i < n) documents.
Proof.
  cbv zeta.
  destruct (process_file_cases self file_path)
    as [->|(content & chunks & _ & _ & Hds)]; [cbn; auto|].
  apply (process_chunks_ok _ _ _ 0) in Hds as (Hlen & Hidx & Htot).
  rewrite <- Hlen in Htot.
  split; [exact Hidx|split; [exact Htot|]].
  apply Forall_forall; intros d Hd.
  destruct (In_nth_error _ _ Hd) as [k Hk].
  assert (Hlt : (k < List.length (process_file self file_path).1)%nat)
    by (apply nth_error_Some; congruence).
  exists (Z.of_nat k), (Z.of_nat (List.length (process_file self file_path).1)).
  split; [|split; [|lia]].
  - apply (map_nth_error (metadata_int "chunk_index")) in Hk.
    rewrite Hidx in Hk.
    rewrite (map_nth_error _ k (seq 0 _) (d := k)) in Hk; [congruence|].
    rewrite nth_error_nth' with (d := O) by now rewrite length_seq.
    now rewrite seq_nth.
  - rewrite Forall_forall in Htot; now apply Htot.
Qed.

(** C5. [process_file] returns a list and never raises.  It returns the
    empty list when the file cannot be read, when the splitter raises, when
    the tokenizer raises on a chunk, and whenever the body of its [try]
    raises. *)
Theorem process_file_catches (self : SimpleDirectoryLoader) (file_path : Path) :
  (forall e, open_read self file_path = Raise e ->
             (process_file self file_path).1 = [])
  /\ (forall content e,
        open_read self file_path = Ok content ->
        chunk_content self content 1000 100 = Raise e ->
        (process_file self file_path).1 = [])
  /\ (forall content chunks chunk e,
        open_read self file_path = Ok content ->
        chunk_content self content 1000 100 = Ok chunks ->
        In chunk chunks -> tokenizer_encode self chunk = Raise e ->
        (process_file self file_path).1 = [])
  /\ (forall content e,
        open_read self file_path = Ok content ->
        process_content self file_path content = Raise e ->
        (process_file self file_path).1 = []).
Proof.
  assert (Hbody : forall content e,
             open_read self file_path = Ok content ->
             process_content self file_path content = Raise e ->
             (process_file self file_path).1 = []).
  { intros content e Hopen Hraise.
    unfold process_file, load_file_content; rewrite Hopen.
    destruct content; [reflexivity|now rewrite Hraise]. }
  repeat split.
  - intros e Hopen; unfold process_file, load_file_content; now rewrite Hopen.
  - intros content e Hopen Hsplit.
    apply (Hbody content e Hopen).
    unfold process_content; now rewrite Hsplit.
  - intros content chunks chunk e Hopen Hsplit Hin Henc.
    destruct (process_chunks_raise self file_path
                (Z.of_nat (List.length chunks)) 0 chunks chunk e Hin Henc)
      as [e' He'].
    apply (Hbody content e' Hopen).
    unfold process_content; rewrite Hsplit; exact He'.
  - exact Hbody.
Qed.

(** The three failures on the stand-in loader: a missing file is logged as
    a warning, a chunk that the tokenizer refuses as an error, and both
    give no document. *)
Example process_file_missing :
  process_file sample_loader (posix_path "work/missing.cs")
  = ([], [Log WARNING
            "Failed to load work/missing.cs: No such file or directory"]).
Proof. reflexivity. Qed.

Example process_file_special_token :
  process_file sample_loader special_file
  = ([], [Log ERROR
            "Error processing work/CleanArchitecture-main/README.md: disallowed special token"]).
Proof. reflexivity. Qed.

Example process_file_sample :
  map page_content (process_file sample_loader sample_file).1
  = [ "[File: CleanArchitecture-main\src\Foo.cs | Type: csharp | Part 1 of 2]\n\nclass Foo";
      "[File: CleanArchitecture-main\src\Foo.cs | Type: csharp | Part 2 of 2]\n\n{ }"
    ]%string
  /\ map (metadata_int "chunk_index") (process_file sample_loader sample_file).1
     = [Some 0; Some 1]
  /\ map (metadata_int "total_chunks") (process_file sample_loader sample_file).1
     = [Some 2; Some 2].
Proof. repeat split; vm_compute; reflexivity. Qed.

(** ** The contextual prefix *)

Lemma append_assoc (a b c : string) : (a +:+ b) +:+ c = a +:+ b +:+ c.
Proof.
  induction a as [|x a IH]; [reflexivity|].
  now rewrite !append_cons, IH.
Qed.

Lemma append_inj_l (a b c : string) : a +:+ b = a +:+ c -> b = c.
Proof.
  induction a as [|x a IH]; [now rewrite !append_nil|].
  rewrite !append_cons; intros [= H]; now apply IH.
Qed.

(** C4. [add_contextual_prefix] returns the context parts ([File: ...],
    [Type: ...] and, exactly when [total_chunks > 1], [Part i of N] with
    [i = chunk_index + 1]) joined with [ | ] inside square brackets, then
    the four characters backslash, [n], backslash, [n], then the chunk
    text unchanged.  What follows the closing bracket is therefore never a
    pair of line feeds. *)
Theorem add_contextual_prefix_backslash_n
    (self : SimpleDirectoryLoader) (content : string)
    (metadata : DocumentMetadata) :
  let descriptor := "[" +:+ join " | " (context_parts self metadata) +:+ "]" in
  add_contextual_prefix self content metadata
  = descriptor +:+ backslash_n +:+ backslash_n +:+ content
  /\ add_contextual_prefix self content metadata
     <> descriptor +:+ newline +:+ newline +:+ content
  /\ context_parts self metadata
     = [ "File: " +:+ name (Path_of_str self (source metadata));
         "Type: " +:+ file_type metadata ]
       ++ (if 1 <? total_chunks metadata
           then [ "Part " +:+ str_of_int (chunk_index metadata + 1)
                  +:+ " of " +:+ str_of_int (total_chunks metadata) ]
           else []).
Proof.
  cbv zeta.
  assert (Heq : add_contextual_prefix self content metadata
                = ("[" +:+ join " | " (context_parts self metadata) +:+ "]")
                  +:+ backslash_n +:+ backslash_n +:+ content).
  { unfold add_contextual_prefix.
    rewrite !append_assoc; do 2 f_equal. }
  split; [exact Heq|split; [|reflexivity]].
  rewrite Heq, !append_assoc; intros H.
  do 3 apply append_inj_l in H.
  discriminate H.
Qed.

Example add_contextual_prefix_single_chunk :
  add_contextual_prefix sample_loader "class Foo { }"
    {| source := "CleanArchitecture-main/Foo.cs"; file_type := "csharp";
       token_count := 13; chunk_index := 0; total_chunks := 1 |}
  = "[File: Foo.cs | Type: csharp]\n\nclass Foo { }"%string.
Proof. reflexivity. Qed.

(** ** The export *)

Lemma count_LF_append a b : count_LF (a +:+ b) = (count_LF a + count_LF b)%nat.
Proof.
  induction a as [|c a IH]; [reflexivity|].
  rewrite append_cons; cbn [count_LF]; rewrite IH; lia.
Qed.

(** The terminator that the [jsonl] branch writes after each record holds
    no line feed: the line feeds of the file are those of the records. *)
Lemma count_LF_jsonl_text env documents :
  count_LF (jsonl_text env documents)
  = list_sum (map (fun doc => count_LF (json_dumps env (doc_data doc)))
                documents).
Proof.
  induction documents as [|doc documents IH]; [reflexivity|].
  cbn [jsonl_text map].
  rewrite !count_LF_append, IH.
  change (count_LF "\n") with O.
  change (list_sum (?x :: ?l)) with (x + list_sum l)%nat; lia.
Qed.

(** Both formats serialise the same values, document by document. *)
Lemma export_documents_same_records env documents output_path :
  open_write env output_path = Ok tt ->
  exists logs,
    export_documents env documents output_path "json"
    = Ok (Some (json_dump_indent2 env (map doc_data documents)), logs)
    /\ export_documents env documents output_path "jsonl"
       = Ok (Some (String.concat EmptyString
                     (map (fun v => json_dumps env v +:+ backslash_n)
                        (map doc_data documents))), logs).
Proof.
  intros Hopen; unfold export_documents; cbn; rewrite Hopen; cbn.
  eexists; split; [reflexivity|]; do 3 f_equal.
  induction documents as [|doc documents IH]; [reflexivity|].
  cbn [jsonl_text map String.concat]; rewrite IH.
  destruct documents; [|reflexivity].
  cbn; now rewrite append_assoc.
Qed.

(** C8. When the serialiser writes no line feed inside a record, as
    [json.dumps] does, the file that the [jsonl] format writes holds no
    line feed at all, however many documents there are: the records are
    not one per line. *)
Theorem jsonl_export_single_line
    (env : ExportEnv) (documents : list Document) (output_path : Path) :
  open_write env output_path = Ok tt ->
  (forall v, count_LF (json_dumps env v) = O) ->
  exists logs,
    export_documents env documents output_path "jsonl"
    = Ok (Some (jsonl_text env documents), logs)
    /\ count_LF (jsonl_text env documents) = O.
Proof.
  intros Hopen Hdumps; unfold export_documents; cbn; rewrite Hopen; cbn.
  eexists; split; [reflexivity|].
  rewrite count_LF_jsonl_text.
  induction documents as [|doc documents IH]; [reflexivity|].
  cbn [map]; change (list_sum (?x :: ?l)) with (x + list_sum l)%nat.
  now rewrite Hdumps, IH.
Qed.

Lemma jsonl_export_single_line_witness :
  exists logs,
    export_documents sample_export_env sample_documents sample_file "jsonl"
    = Ok (Some "{}\n{}\n"%string, logs)
    /\ count_LF "{}\n{}\n" = O.
Proof.
  exact (jsonl_export_single_line sample_export_env sample_documents
           sample_file eq_refl (fun _ => eq_refl)).
Defined.

(** ** The vector store *)

(** C7, as the code has it. Whatever the deletion does, also when it
    raises, [initialize_collection] goes on to send the creation request,
    and its outcome is the outcome of the creation: no failure of the
    deletion is raised.  An [UnexpectedResponse] leaves no log record; any
    other exception of the deletion is logged as a warning. *)
Theorem initialize_collection_deletion_tolerated
    {float : Type} (self : VectorDBManager float) (w : world float) :
  let deletion := delete_collection (collection_name self) in
  let creation :=
    create_collection (collection_name self)
      {| params_size := vector_size self; params_distance := COSINE |} in
  let outcome := client self (calls w ++ [deletion]) creation in
  (initialize_collection self w).1 = outcome
  /\ calls (initialize_collection self w).2 = calls w ++ [deletion; creation]
  /\ logged (initialize_collection self w).2
     = logged w
       ++ deletion_log (collection_name self) (client self (calls w) deletion)
       ++ match outcome with
          | Ok _ => [Log INFO ("Created new collection: " +:+ collection_name self)]
          | Raise _ => []
          end.
Proof.
  cbv zeta.
  unfold initialize_collection, mbind, M_bind, try_except, qdrant, log, mret,
    M_ret, deletion_log.
  cbn [calls logged].
  destruct (client self (calls w) (delete_collection (collection_name self)))
    as [[]|[text|text|cls text]]; cbn [calls logged fst snd];
    rewrite <- ?app_assoc; cbn [app];
    destruct (client self _ (create_collection _ _)) as [[]|e];
    cbn [calls logged fst snd]; rewrite <- ?app_assoc, ?app_nil_r;
    repeat split; reflexivity.
Qed.

(** C7, the claim refuted. The server answers the deletion with an
    [UnexpectedResponse] that reports an internal error, or the request
    times out: in both cases [initialize_collection] returns normally
    after creating the collection, in the first without any log record of
    the failure. *)
Lemma initialize_collection_hides_deletion_failure :
  initialize_collection
    (manager_failing_delete
       (UnexpectedResponse "Unexpected Response: 500 (Internal Server Error)"))
    empty_world
  = (Ok tt,
     {| calls := [ delete_collection "documents";
                   create_collection "documents"
                     {| params_size := 3072; params_distance := COSINE |} ];
        logged := [Log INFO "Created new collection: documents"] |})
  /\ initialize_collection
       (manager_failing_delete
          (OtherException "ResponseHandlingException" "timed out"))
       empty_world
     = (Ok tt,
        {| calls := [ delete_collection "documents";
                      create_collection "documents"
                        {| params_size := 3072; params_distance := COSINE |} ];
           logged := [ Log WARNING "Error deleting collection: timed out";
                       Log INFO "Created new collection: documents" ] |}).
Proof. split; reflexivity. Qed.

(** [add_document] with an embedding at hand returns [doc_id] whenever the
    server accepts the point. *)
Lemma add_document_accepted {float : Type} (self : VectorDBManager float)
    doc_id text embedding metadata (w : world float) :
  let point := {| point_id := doc_id; vector := embedding;
                  payload := <["document" := VStr text]> (default ∅ metadata) |} in
  client self (calls w) (upsert (collection_name self) [point]) = Ok tt ->
  (add_document self doc_id text (Some embedding) metadata w).1 = Ok doc_id.
Proof.
  cbv zeta; intros Hup.
  unfold add_document, mbind, M_bind, qdrant, log, mret, M_ret.
  now rewrite Hup.
Qed.

(** C10. When [add_document] returns, it returns [doc_id], and the last
    request it has sent upserts one point with the identifier [doc_id]
    whose payload is the caller's metadata ([{}] for [None]) with the key
    [document] set to [text]: the payload maps [document] to [text],
    whatever the metadata held under that key, and agrees with the
    metadata on every other key.  The vector is the embedding given, when
    one is given. *)
Theorem add_document_payload {float : Type} (self : VectorDBManager float)
    (doc_id text : string) (embedding : option (list float))
    (metadata : option (gmap string value)) (w w' : world float)
    (returned : string) :
  add_document self doc_id text embedding metadata w = (Ok returned, w') ->
  returned = doc_id
  /\ exists vec before,
       (forall e, embedding = Some e -> vec = e)
       /\ calls w'
          = before ++ [ upsert (collection_name self)
                          [ {| point_id := doc_id; vector := vec;
                               payload := <["document" := VStr text]>
                                            (default ∅ metadata) |} ] ]
       /\ (<["document" := VStr text]> (default ∅ metadata) : gmap string value)
            !! "document"%string = Some (VStr text)
       /\ (forall key, key <> "document"%string ->
             (<["document" := VStr text]> (default ∅ metadata) : gmap string value)
               !! key = default ∅ metadata !! key).
Proof.
  intros Hrun.
  assert (Hcalls : returned = doc_id /\ exists vec before,
             (forall e, embedding = Some e -> vec = e)
             /\ calls w' = before ++ [ upsert (collection_name self)
                     [ {| point_id := doc_id; vector := vec;
                          payload := <["document" := VStr text]>
                                       (default ∅ metadata) |} ] ]).
  { revert Hrun.
    unfold add_document, mbind, M_bind, qdrant, log, mret, M_ret.
    destruct embedding as [e|].
    - destruct (client self (calls w) _) as [[]|e0]; intros [= <- <-].
      split; [reflexivity|]; exists e, (calls w).
      split; [now intros ? [= ->]|reflexivity].
    - destruct (create_embedding self text "text-embedding-3-large" w)
        as [[vec|e0] w1]; [|discriminate].
      destruct (client self (calls w1) _) as [[]|e0]; intros [= <- <-].
      split; [reflexivity|]; exists vec, (calls w1).
      split; [discriminate|reflexivity]. }
  destruct Hcalls as (Hret & vec & before & Hvec & Hcalls).
  split; [exact Hret|]; exists vec, before.
  repeat split; [exact Hvec|exact Hcalls|apply lookup_insert_eq|].
  intros key Hkey; now apply lookup_insert_ne.
Qed.

Lemma add_document_payload_witness :
  let metadata : gmap string value :=
    <["document" := VStr "stale"]> (<["source" := VStr "Foo.cs"]> ∅) in
  exists before,
    calls (add_document sample_manager "id-1" "fresh" None (Some metadata)
             empty_world).2
    = before ++ [ upsert "documents"
                    [ {| point_id := "id-1"; vector := [1; 2];
                         payload := <["document" := VStr "fresh"]> metadata |} ] ]
    /\ (<["document" := VStr "fresh"]> metadata : gmap string value)
         !! "document"%string = Some (VStr "fresh").
Proof.
  cbv zeta.
  destruct (add_document_payload sample_manager "id-1" "fresh" None
              (Some (<["document" := VStr "stale"]>
                       (<["source" := VStr "Foo.cs"]> ∅)))
              empty_world
              (add_document sample_manager "id-1" "fresh" None
                 (Some (<["document" := VStr "stale"]>
                          (<["source" := VStr "Foo.cs"]> ∅)))
                 empty_world).2
              "id-1" eq_refl)
    as (_ & vec & before & _ & Hcalls & Hdoc & _).
  exists before; split; [|exact Hdoc].
  rewrite Hcalls; do 3 f_equal.
  apply app_inj_tail in Hcalls as [_ [= <-]]; reflexivity.
Defined.

(** * Further properties of the code *)

(** ** The classifier looks at the extension only *)

Lemma endswith_suffix s suffix :
  endswith s suffix = true <-> exists s0, s = s0 +:+ suffix.
Proof.
  induction s as [|c s IH]; cbn [endswith]; rewrite orb_true_iff, String.eqb_eq.
  - split.
    + intros [<-|H]; [now exists EmptyString | discriminate].
    + intros [[|d s0] H]; [now left | discriminate H].
  - rewrite IH; split.
    + intros [<-|[s0 ->]]; [now exists EmptyString | now exists (String c s0)].
    + intros [[|d s0] H]; [now left|].
      rewrite append_cons in H; injection H as _ ->; right; now exists s0.
Qed.

Lemma literalb_literal pat : literalb pat = true -> literal pat.
Proof.
  unfold literalb, literal; rewrite forallb_forall; intros H c Hc.
  apply H in Hc; apply andb_true_iff in Hc as [H1 H2].
  apply negb_true_iff in H1, H2; now rewrite Ascii.eqb_neq in H1, H2.
Qed.

(** [*] followed by a literal matches the names that end in the
    literal. *)
Lemma fnmatchcase_pat_star_literal lit s :
  literal lit -> fnmatchcase_pat (String "*" lit) s = endswith s lit.
Proof.
  intros Hlit.
  assert (Heq : forall s, fnmatchcase_pat lit s = String.eqb s lit).
  { intros s'; apply eq_true_iff_eq.
    now rewrite fnmatchcase_pat_literal, String.eqb_eq. }
  induction s as [|c s IH]; rewrite fnmatchcase_pat_star; cbn [endswith];
    now rewrite Heq, ?IH.
Qed.

Lemma fnmatch_star_literal os file_name lit :
  literalb lit = true -> normcase os (String "*" lit) = String "*" lit ->
  fnmatch os file_name (String "*" lit) = endswith (normcase os file_name) lit.
Proof.
  intros Hlit Hnorm; unfold fnmatch, fnmatchcase; rewrite Hnorm.
  now apply fnmatchcase_pat_star_literal, literalb_literal.
Qed.

Lemma fnmatch_appsettings os file_name :
  fnmatch os file_name "appsettings*.json" = true ->
  endswith (normcase os file_name) ".json" = true.
Proof.
  unfold fnmatch, fnmatchcase.
  replace (normcase os "appsettings*.json") with ("appsettings*" +:+ ".json")
    by now destruct os.
  intros H; apply endswith_suffix.
  apply (fnmatchcase_pat_suffix _ _ _ (literalb_literal ".json" eq_refl) H).
Qed.

Lemma fnmatch_late_cs os file_name pat :
  In pat late_cs_patterns ->
  endswith (normcase os file_name) ".cs" = false ->
  fnmatch os file_name pat = false.
Proof.
  intros Hin Hcs.
  destruct (fnmatch os file_name pat) eqn:Hp; [|reflexivity].
  apply (late_cs_pattern_is_csharp _ _ _ Hin) in Hp.
  rewrite fnmatch_star_literal in Hp by now destruct os.
  congruence.
Qed.

(** X1. [identify_file_type] is the classifier by extension, applied to
    the case-normalised file name: the patterns [appsettings*.json],
    [*test*.cs], ... of the table change nothing. *)
Theorem identify_file_type_by_extension (os : os_flavour) (file_path : Path) :
  identify_file_type os file_path
  = file_type_of_extension (normcase os (name file_path)).
Proof.
  unfold identify_file_type, file_type_of_extension, FILE_TYPE_PATTERNS.
  cbn [first_matching_type matches_any existsb].
  rewrite !fnmatch_star_literal by now destruct os.
  destruct (endswith (normcase os (name file_path)) ".cs") eqn:Hcs;
    [reflexivity|].
  rewrite (fnmatch_late_cs os _ "*test*.cs"), (fnmatch_late_cs os _ "*Test*.cs"),
    (fnmatch_late_cs os _ "*Tests*.cs"), (fnmatch_late_cs os _ "*Migration*.cs"),
    (fnmatch_late_cs os _ "*migration*.cs")
    by first [exact Hcs | cbn; tauto].
  destruct (endswith (normcase os (name file_path)) ".json") eqn:Hjson.
  - repeat match goal with
           | |- context [endswith ?a ?b] =>
               destruct (endswith a b); cbn [orb]; try reflexivity
           end.
  - destruct (fnmatch os (name file_path) "appsettings*.json") eqn:Happ;
      [apply fnmatch_appsettings in Happ; congruence|].
    repeat match goal with
           | |- context [endswith ?a ?b] =>
               destruct (endswith a b); cbn [orb]; try reflexivity
           end.
Qed.

(** ** What [process_file] returns and logs *)

Lemma process_chunks_imap self file_path (n j : nat) chunks :
  (forall chunk, In chunk chunks ->
                 exists tokens, tokenizer_encode self chunk = Ok tokens) ->
  process_chunks self file_path (Z.of_nat n) (Z.of_nat j) chunks
  = Ok (imap (fun k => chunk_document self file_path n (j + k)) chunks).
Proof.
  revert j; induction chunks as [|chunk chunks IH]; intros j Hall;
    [reflexivity|].
  cbn [process_chunks imap].
  destruct (Hall chunk) as [tokens Htok]; [now left|].
  rewrite (create_enhanced_metadata_ok _ _ _ _ _ _ Htok).
  replace (Z.of_nat j + 1) with (Z.of_nat (S j)) by lia.
  rewrite (IH (S j)) by (intros; apply Hall; now right).
  cbn; do 2 f_equal.
  - unfold chunk_document, token_count_of; rewrite Htok.
    now replace (j + 0)%nat with j by lia.
  - apply imap_ext; intros k c _; cbn.
    now replace (j + S k)%nat with (S j + k)%nat by lia.
Qed.

(** X2. For a readable, non-empty file whose chunks the tokenizer
    accepts, [process_file] logs nothing and returns, chunk by chunk in
    order, the document whose text is the prefix followed by the chunk
    and whose [token_count] is the number of tokens of the chunk alone,
    without the prefix. *)
Theorem process_file_documents (self : SimpleDirectoryLoader)
    (file_path : Path) (content : string) (chunks : list string) :
  open_read self file_path = Ok content -> content <> EmptyString ->
  chunk_content self content 1000 100 = Ok chunks ->
  (forall chunk, In chunk chunks ->
                 exists tokens, tokenizer_encode self chunk = Ok tokens) ->
  process_file self file_path
  = (imap (chunk_document self file_path (List.length chunks)) chunks, []).
Proof.
  intros Hopen Hne Hsplit Hall.
  unfold process_file, load_file_content, process_content.
  rewrite Hopen; destruct content as [|c content]; [congruence|].
  rewrite Hsplit; cbn.
  change 0 with (Z.of_nat 0).
  now rewrite (process_chunks_imap _ _ _ 0 _ Hall).
Qed.

Lemma process_file_documents_witness :
  process_file sample_loader sample_file
  = (imap (chunk_document sample_loader sample_file 2)
       ["class Foo"; "{ }"]%string, []).
Proof.
  apply (process_file_documents sample_loader sample_file sample_content
           ["class Foo"; "{ }"]%string);
    [reflexivity | discriminate | reflexivity |].
  intros chunk [<-|[<-|[]]]; eexists; reflexivity.
Defined.


(** ** Enumerating the files *)

Lemma in_all_files_of rglob include_patterns file_path :
  In file_path (all_files_of rglob include_patterns) <->
  exists pattern, In pattern include_patterns /\ In file_path (rglob pattern).
Proof.
  induction include_patterns as [|p ps IH]; cbn.
  - split; [intros [] | intros (? & [] & _)].
  - rewrite in_app_iff, IH; split.
    + intros [H|(q & Hq & H)]; [exists p; auto | exists q; auto].
    + intros (q & [<-|Hq] & H); [now left | right; now exists q].
Qed.

Lemma should_exclude_false os file_path_str exclude_patterns :
  should_exclude os file_path_str exclude_patterns = false <->
  (forall pattern, In pattern exclude_patterns ->
                   fnmatch os file_path_str pattern = false).
Proof.
  induction exclude_patterns as [|p ps IH]; cbn.
  - split; [intros _ ? [] | reflexivity].
  - destruct (fnmatch os file_path_str p) eqn:Hp.
    + split; [discriminate|]; intros H.
      rewrite (H p) in Hp; [discriminate | now left].
    + rewrite IH; split; [intros H q [<-|Hq]; auto | intros H q Hq; auto].
Qed.

Lemma in_filtered_files_of os exclude_patterns all_files file_path :
  In file_path (filtered_files_of os exclude_patterns all_files) <->
  In file_path all_files
  /\ should_exclude os (str file_path) exclude_patterns = false.
Proof.
  induction all_files as [|f fs IH]; cbn; [tauto|].
  destruct (should_exclude os (str f) exclude_patterns) eqn:Hf; cbn;
    rewrite IH; split.
  - intros [H1 H2]; auto.
  - intros [[->|H1] H2]; [congruence | auto].
  - intros [->|[H1 H2]]; auto.
  - intros [[->|H1] H2]; auto.
Qed.

(** A literal in front of a pattern. *)
Lemma fnmatchcase_pat_literal_prefix lit pat s :
  literal lit ->
  fnmatchcase_pat (lit +:+ pat) s = true <->
  exists post, s = lit +:+ post /\ fnmatchcase_pat pat post = true.
Proof.
  revert s; induction lit as [|c lit IH]; intros s Hlit.
  - rewrite append_nil; split; [intros H; now exists s | now intros (? & -> & ?)].
  - apply literal_cons in Hlit as [[H1 H2] Hlit].
    rewrite append_cons, fnmatchcase_pat_literal_cons by assumption.
    destruct s as [|d s].
    + split; [discriminate | intros (post & H & _); discriminate H].
    + rewrite andb_true_iff, Ascii.eqb_eq, IH by assumption; split.
      * intros [-> (post & -> & H)]; exists post; now rewrite append_cons.
      * intros (post & H & Hp); rewrite append_cons in H.
        injection H as -> ->; split; [reflexivity | now exists post].
Qed.

(** A leading [*] lets the rest of the pattern match any tail. *)
Lemma fnmatchcase_pat_star_tail pat s :
  fnmatchcase_pat (String "*" pat) s = true <->
  exists pre post, s = pre +:+ post /\ fnmatchcase_pat pat post = true.
Proof.
  split.
  - induction s as [|d s IH]; rewrite fnmatchcase_pat_star, orb_true_iff.
    + intros [H|H]; [|discriminate]; now exists EmptyString, EmptyString.
    + intros [H|H]; [now exists EmptyString, (String d s)|].
      destruct (IH H) as (pre & post & -> & Hp).
      now exists (String d pre), post.
  - intros (pre & post & -> & H); now apply fnmatchcase_pat_star_prefix.
Qed.

Lemma fnmatchcase_pat_stars s : fnmatchcase_pat "**" s = true.
Proof.
  apply fnmatchcase_pat_star_tail; exists s, EmptyString; split.
  - induction s as [|c s IH]; [reflexivity | now rewrite append_cons, <- IH].
  - reflexivity.
Qed.

(** [**lit**] matches the strings that contain the literal [lit]. *)
Lemma fnmatchcase_pat_infix lit s :
  literal lit ->
  fnmatchcase_pat ("**" +:+ lit +:+ "**") s = contains lit s.
Proof.
  intros Hlit; apply eq_true_iff_eq.
  rewrite contains_substring.
  change ("**" +:+ lit +:+ "**") with (String "*" (String "*" (lit +:+ "**"))).
  rewrite fnmatchcase_pat_star_tail; split.
  - intros (pre1 & post1 & -> & H).
    apply fnmatchcase_pat_star_tail in H as (pre2 & post2 & -> & H).
    apply fnmatchcase_pat_literal_prefix in H as (post & -> & _); [|assumption].
    exists (pre1 +:+ pre2), post; now rewrite append_assoc.
  - intros (pre & post & ->).
    exists pre, (lit +:+ post); split; [reflexivity|].
    apply fnmatchcase_pat_star_tail; exists EmptyString, (lit +:+ post).
    split; [reflexivity|].
    apply fnmatchcase_pat_literal_prefix; [assumption|].
    exists post; split; [reflexivity | apply fnmatchcase_pat_stars].
Qed.

Lemma fnmatch_excluded_directory os s dir :
  In dir excluded_directories ->
  fnmatch os s ("**" +:+ dir +:+ "**")
  = contains (normcase os dir) (normcase os s).
Proof.
  unfold fnmatch, fnmatchcase; intros Hin.
  replace (normcase os ("**" +:+ dir +:+ "**"))
    with ("**" +:+ normcase os dir +:+ "**").
  - apply fnmatchcase_pat_infix, literalb_literal.
    cbn in Hin; repeat (destruct Hin as [<-|Hin]; [now destruct os|]).
    destruct Hin.
  - cbn in Hin; repeat (destruct Hin as [<-|Hin]; [now destruct os|]).
    destruct Hin.
Qed.


(** The exclusion at work: a build output below the repository is
    dropped, the sources are kept, each once. *)
Example get_files_to_process_sample :
  get_files_to_process sample_loader sample_rglob None None
  = [sample_file; special_file].
Proof. reflexivity. Qed.

(** A [bin] directory that starts the path string has no separator in
    front of it and is not excluded. *)
Example leading_bin_is_kept :
  should_exclude posix "bin/Debug/Gen.cs" default_exclude_patterns = false
  /\ should_exclude posix "./bin/Debug/Gen.cs" default_exclude_patterns = true.
Proof. split; reflexivity. Qed.

(** ** Loading all files *)

Lemma all_documents_of_length self completed :
  List.length (all_documents_of self completed)
  = list_sum (map (fun f => List.length (process_file self f).1) completed).
Proof.
  induction completed as [|f fs IH]; [reflexivity|].
  cbn [all_documents_of map].
  change (list_sum (?x :: ?l)) with (x + list_sum l)%nat.
  now rewrite length_app, IH.
Qed.

Lemma list_sum_permutation (l1 l2 : list nat) :
  Permutation l1 l2 -> list_sum l1 = list_sum l2.
Proof.
  induction 1; unfold list_sum in *; cbn [fold_right]; lia.
Qed.

Lemma all_documents_of_infix self completed file_path :
  In file_path completed ->
  exists before after,
    all_documents_of self completed
    = before ++ (process_file self file_path).1 ++ after.
Proof.
  induction completed as [|f fs IH]; [intros []|].
  intros [->|Hin]; cbn [all_documents_of].
  - now exists [], (all_documents_of self fs).
  - destruct (IH Hin) as (before & after & ->).
    exists ((process_file self f).1 ++ before), after.
    now rewrite <- app_assoc.
Qed.

(** X5. Whatever the order in which the pool completes the files, as long
    as each submitted file completes once, [load_documents] returns as
    many documents as the files give together, and the documents of each
    file stand together, in the order of [process_file]. *)
Theorem load_documents_any_completion_order
    (self : SimpleDirectoryLoader) (rglob : string -> list Path)
    (as_completed : list Path -> list Path)
    (include_patterns exclude_patterns : option (list string)) :
  let files :=
    get_files_to_process self rglob include_patterns exclude_patterns in
  let all_documents :=
    load_documents self rglob as_completed include_patterns exclude_patterns in
  Permutation (as_completed files) files ->
  List.length all_documents
  = list_sum (map (fun f => List.length (process_file self f).1) files)
  /\ (forall file_path, In file_path files ->
        exists before after,
          all_documents = before ++ (process_file self file_path).1 ++ after).
Proof.
  cbv zeta; intros Hperm; unfold load_documents; split.
  - rewrite all_documents_of_length.
    apply list_sum_permutation, Permutation_map, Hperm.
  - intros file_path Hin; apply all_documents_of_infix.
    apply (Permutation_in _ (Permutation_sym Hperm) Hin).
Qed.

Lemma load_documents_any_completion_order_witness :
  List.length (load_documents sample_loader sample_rglob (@rev Path) None None)
  = 2%nat
  /\ exists before after,
       load_documents sample_loader sample_rglob (@rev Path) None None
       = before ++ (process_file sample_loader sample_file).1 ++ after.
Proof.
  destruct (load_documents_any_completion_order sample_loader sample_rglob
              (@rev Path) None None (Permutation_sym (Permutation_rev _)))
    as [Hlen Hfiles].
  split; [exact Hlen|].
  apply Hfiles; now left.
Defined.

(** ** Exporting in an unknown format *)

(** X6. For a format other than [json] and [jsonl], [export_documents]
    opens and writes no file and raises nothing, and still logs that the
    documents were exported. *)
Theorem export_documents_unknown_format (env : ExportEnv)
    (documents : list Document) (output_path : Path) (format : string) :
  format <> "json"%string -> format <> "jsonl"%string ->
  export_documents env documents output_path format
  = Ok (None,
        [Log INFO ("Exported " +:+ str_of_int (Z.of_nat (List.length documents))
                   +:+ " documents to " +:+ str output_path)]).
Proof.
  intros H1 H2; unfold export_documents.
  apply String.eqb_neq in H1, H2; now rewrite H1, H2.
Qed.

Lemma export_documents_unknown_format_witness :
  export_documents sample_export_env sample_documents sample_file "csv"
  = Ok (None,
        [Log INFO "Exported 2 documents to work/CleanArchitecture-main/src/Foo.cs"]).
Proof.
  apply (export_documents_unknown_format sample_export_env sample_documents
           sample_file "csv"); discriminate.
Defined.

(** ** Embeddings *)

(** X7. Without an embeddings client [create_embedding] raises a
    [ValueError] and neither sends nor logs anything.  With a client it
    sends exactly one request; it returns the first embedding of the
    answer and logs it at debug level, and when the request fails or the
    answer holds no embedding it logs one error and raises the exception
    (a [ValueError] for the empty answer). *)
Theorem create_embedding_outcomes {float : Type}
    (self : VectorDBManager float) (text model : string) (w : world float) :
  match embeddings_client self with
  | None =>
      create_embedding self text model w
      = (Raise (ValueError
           "Azure AI Embeddings Client not initialized. Check your credentials."),
         w)
  | Some ec =>
      let answer := ec (calls w) [text] model in
      let w' := (create_embedding self text model w).2 in
      calls w' = calls w ++ [embeddings_create [text] model]
      /\ match (create_embedding self text model w).1 with
         | Ok embedding =>
             (exists rest, answer = Ok (embedding :: rest))
             /\ logged w'
                = logged w
                  ++ [Log DEBUG ("Created embedding with "
                        +:+ str_of_int (Z.of_nat (List.length embedding))
                        +:+ " dimensions")]
         | Raise e =>
             (answer = Raise e
              \/ answer = Ok []
                 /\ e = ValueError "No embedding data received from Azure AI")
             /\ logged w'
                = logged w
                  ++ [Log ERROR ("Failed to create embedding: " +:+ exn_text e)]
         end
  end.
Proof.
  unfold create_embedding.
  destruct (embeddings_client self) as [ec|]; [|reflexivity].
  unfold try_except, azure, mbind, M_bind, log, mret, M_ret, raise.
  destruct (ec (calls w) [text] model) as [[|embedding rest]|e]; cbn;
    (split; [reflexivity|split; [eauto|reflexivity]]).
Qed.

Lemma create_embedding_no_upsert {float : Type}
    (self : VectorDBManager float) text model (w : world float) :
  upserted_points (calls (create_embedding self text model w).2)
  = upserted_points (calls w).
Proof.
  unfold create_embedding.
  destruct (embeddings_client self) as [ec|]; [|reflexivity].
  unfold try_except, azure, mbind, M_bind, log, mret, M_ret, raise.
  assert (Happ : forall l : list (call float),
             upserted_points (l ++ [embeddings_create [text] model])
             = upserted_points l).
  { induction l as [|[] l IH]; cbn; rewrite ?IH; reflexivity. }
  destruct (ec (calls w) [text] model) as [[|embedding rest]|e]; cbn;
    apply Happ.
Qed.

Lemma upserted_points_upsert {float : Type} (l : list (call float)) name points :
  upserted_points (l ++ [upsert name points]) = upserted_points l ++ points.
Proof.
  induction l as [|[] l IH]; cbn; rewrite ?IH, ?app_nil_r, ?app_assoc;
    reflexivity.
Qed.

(** ** Adding and updating documents *)

(** X8. [add_document] upserts one point, the one built from its
    arguments (with the embedding given, or else the one that
    [create_embedding] returns), and nothing else; the only case in which
    it upserts nothing is that no embedding was given and
    [create_embedding] raised, and then it raises the same exception. *)
Theorem add_document_upserts_once {float : Type}
    (self : VectorDBManager float) (doc_id text : string)
    (embedding : option (list float)) (metadata : option (gmap string value))
    (w : world float) :
  let run := add_document self doc_id text embedding metadata w in
  (exists vec,
      upserted_points (calls run.2)
      = upserted_points (calls w)
        ++ [stored_point doc_id text vec (default ∅ metadata)]
      /\ (forall e, embedding = Some e -> vec = e)
      /\ (embedding = None ->
          (create_embedding self text "text-embedding-3-large" w).1 = Ok vec))
  \/ (embedding = None
      /\ upserted_points (calls run.2) = upserted_points (calls w)
      /\ exists e,
           run.1 = Raise e
           /\ (create_embedding self text "text-embedding-3-large" w).1
              = Raise e).
Proof.
  cbv zeta; unfold add_document, mbind, M_bind, qdrant, log, mret, M_ret.
  destruct embedding as [e|].
  - left; exists e.
    destruct (client self (calls w) _) as [[]|e0]; cbn;
      rewrite upserted_points_upsert; repeat split; (congruence || discriminate).
  - pose proof (create_embedding_no_upsert self text
                  "text-embedding-3-large" w) as Hno.
    destruct (create_embedding self text "text-embedding-3-large" w)
      as [[vec|e0] w1]; cbn in Hno |- *.
    + left; exists vec.
      destruct (client self (calls w1) _) as [[]|e0]; cbn;
        rewrite upserted_points_upsert, Hno; repeat split; discriminate.
    + right; repeat split; [exact Hno|now exists e0].
Qed.

(** When [add_document] returns, the point it was to store has been
    upserted, after the points upserted before. *)
Lemma add_document_ok_upserts {float : Type} (self : VectorDBManager float)
    doc_id text metadata (w w' : world float) returned :
  add_document self doc_id text None metadata w = (Ok returned, w') ->
  map id_payload (upserted_points (calls w'))
  = map id_payload (upserted_points (calls w))
    ++ [(doc_id, <["document" := VStr text]> (default ∅ metadata))].
Proof.
  unfold add_document, mbind, M_bind, qdrant, log, mret, M_ret.
  pose proof (create_embedding_no_upsert self text
                "text-embedding-3-large" w) as Hno.
  destruct (create_embedding self text "text-embedding-3-large" w)
    as [[vec|e0] w1]; cbn in Hno |- *; [|discriminate].
  destruct (client self (calls w1) _) as [[]|e0]; intros [= <- <-]; cbn.
  now rewrite upserted_points_upsert, map_app, Hno.
Qed.

(** X9. Without an embeddings client, [add_document_with_text] raises
    the [ValueError] of [create_embedding] before any request is sent:
    the world is unchanged. *)
Theorem add_document_with_text_without_client {float : Type}
    (self : VectorDBManager float) (doc_id text : string)
    (metadata : option (gmap string value)) (w : world float) :
  embeddings_client self = None ->
  add_document_with_text self doc_id text metadata w
  = (Raise (ValueError
       "Azure AI Embeddings Client not initialized. Check your credentials."),
     w).
Proof.
  intros Hnone.
  unfold add_document_with_text, add_document, mbind, M_bind, create_embedding.
  now rewrite Hnone.
Qed.

Lemma add_document_with_text_without_client_witness :
  add_document_with_text (manager_failing_delete (ValueError "refused"))
    "id-1" "fresh" None empty_world
  = (Raise (ValueError
       "Azure AI Embeddings Client not initialized. Check your credentials."),
     empty_world).
Proof.
  exact (add_document_with_text_without_client
           (manager_failing_delete (ValueError "refused")) "id-1" "fresh" None
           empty_world eq_refl).
Defined.

(** X10. [update_document] sends the very request that [add_document]
    sends for the same identifier, text, embedding and metadata, and it
    fails exactly when [add_document] fails, with the same exception;
    the two differ in what they return and in the text they log. *)
Theorem update_document_as_add_document {float : Type}
    (self : VectorDBManager float) (doc_id document : string)
    (embedding : list float) (metadata : gmap string value) (w : world float) :
  let updated := update_document self doc_id document embedding metadata w in
  let added :=
    add_document self doc_id document (Some embedding) (Some metadata) w in
  calls updated.2 = calls added.2
  /\ calls updated.2
     = calls w ++ [upsert (collection_name self)
                     [stored_point doc_id document embedding metadata]]
  /\ match added.1 with
     | Ok returned =>
         returned = doc_id /\ updated.1 = Ok tt
         /\ logged updated.2
            = logged w ++ [Log INFO ("Updated document with ID: " +:+ doc_id)]
     | Raise e => updated.1 = Raise e /\ logged updated.2 = logged w
     end.
Proof.
  cbv zeta.
  unfold update_document, add_document, mbind, M_bind, qdrant, log, mret, M_ret.
  cbn [default].
  destruct (client self (calls w) _) as [[]|e]; cbn; repeat split; reflexivity.
Qed.

(** ** Searching *)

Lemma format_results_hits {float : Type} (hits : list (hit float)) :
  format_results (map scored_hit hits)
  = Ok (map (fun h => VStr (hit_text h)) hits,
        map (fun h => delete "document"%string (hit_metadata h)) hits,
        map hit_score hits,
        map hit_id hits).
Proof.
  induction hits as [|h hits IH]; [reflexivity|].
  cbn [map format_results scored_hit scored stored_point result_payload
       payload result_score result_id point_id str_of_ident].
  rewrite IH; cbn.
  now rewrite lookup_insert_eq, delete_insert_eq.
Qed.



Lemma format_results_shape {float : Type}
    (search_results : list (ScoredPoint float)) :
  match format_results search_results with
  | Ok (documents, metadatas, distances, ids) =>
      List.length documents = List.length search_results
      /\ List.length metadatas = List.length search_results
      /\ distances = map result_score search_results
      /\ ids = map (fun r => str_of_ident (result_id r)) search_results
      /\ Forall (fun m : gmap string value => m !! "document"%string = None)
           metadatas
  | Raise e =>
      e = OtherException "AttributeError"
            "'NoneType' object has no attribute 'get'"
      /\ exists r, In r search_results /\ result_payload r = None
  end.
Proof.
  induction search_results as [|r rs IH]; cbn [format_results].
  - cbn; repeat split; constructor.
  - destruct (result_payload r) as [p|] eqn:Hp.
    + destruct (format_results rs) as [[[[ds ms] ss] ids]|e]; cbn.
      * destruct IH as (H1 & H2 & H3 & H4 & H5); cbn [List.length map].
        repeat split; try congruence.
        constructor; [apply lookup_delete_eq|exact H5].
      * destruct IH as (He & r' & Hin & Hr'); split; [exact He|].
        exists r'; split; [now right|exact Hr'].
    + split; [reflexivity|]; exists r; split; [now left|exact Hp].
Qed.


(** ** Uploading an exported file *)

Lemma upload_upserts {float : Type} (db_manager : VectorDBManager float)
    uuid4 (k : nat) documents (w w' : world float) :
  InitializeVectorDb.upload db_manager uuid4 k documents w = (Ok tt, w') ->
  map id_payload (upserted_points (calls w'))
  = map id_payload (upserted_points (calls w))
    ++ imap (fun i => uploaded uuid4 (k + i)) documents.
Proof.
  revert k w; induction documents as [|doc documents IH]; intros k w.
  - intros [= <-]; cbn; now rewrite app_nil_r.
  - cbn [InitializeVectorDb.upload imap].
    unfold mbind at 1, M_bind at 1, add_document_with_text.
    destruct (add_document db_manager (uuid4 k) _ None _ w)
      as [[returned|e] w1] eqn:Hadd; [|discriminate].
    intros Hrest; apply IH in Hrest; rewrite Hrest.
    rewrite (add_document_ok_upserts _ _ _ _ _ _ _ Hadd), <- app_assoc.
    f_equal; cbn [app default]; f_equal.
    + unfold uploaded; now replace (k + 0)%nat with k by lia.
    + apply imap_ext; intros i d _; cbn.
      now replace (S (k + i))%nat with (k + S i)%nat by lia.
Qed.

Lemma initialize_collection_no_upsert {float : Type}
    (self : VectorDBManager float) (w : world float) :
  calls (initialize_collection self w).2
  = calls w ++ [ delete_collection (collection_name self);
                 create_collection (collection_name self)
                   {| params_size := vector_size self;
                      params_distance := COSINE |} ]
  /\ upserted_points (calls (initialize_collection self w).2)
     = upserted_points (calls w).
Proof.
  assert (Hcalls : calls (initialize_collection self w).2
                   = calls w ++ [ delete_collection (collection_name self);
                                  create_collection (collection_name self)
                                    {| params_size := vector_size self;
                                       params_distance := COSINE |} ]).
  { unfold initialize_collection, mbind, M_bind, try_except, qdrant, log,
      mret, M_ret.
    cbn [calls logged].
    destruct (client self (calls w) (delete_collection (collection_name self)))
      as [[]|[text|text|cls text]]; cbn [calls logged fst snd];
      destruct (client self _ (create_collection _ _)) as [[]|e];
      cbn [calls logged fst snd]; now rewrite <- app_assoc. }
  split; [exact Hcalls|rewrite Hcalls; clear Hcalls].
  induction (calls w) as [|[] l IH]; cbn; rewrite ?IH; reflexivity.
Qed.

(** X13. When [load_documents] of [initialize_vector_db.py] returns, it
    has upserted one point per element of the file, in the order of the
    file: the point number [k] has the [k]-th identifier drawn, and its
    payload is the element's metadata ([{}] when missing) with the key
    [document] set to its [page_content] (the empty string when
    missing).  This holds with and without [recreate]. *)
Theorem load_documents_uploads {float : Type}
    (db_manager : VectorDBManager float)
    (documents : list InitializeVectorDb.exported_doc) (recreate : bool)
    (uuid4 : nat -> string) (w w' : world float) :
  InitializeVectorDb.load_documents db_manager (Ok documents) recreate uuid4 w
  = (Ok tt, w') ->
  map id_payload (upserted_points (calls w'))
  = map id_payload (upserted_points (calls w))
    ++ imap (uploaded uuid4) documents.
Proof.
  unfold InitializeVectorDb.load_documents.
  unfold mbind at 1, M_bind at 1.
  destruct recreate.
  - pose proof (initialize_collection_no_upsert db_manager w) as [_ Hno].
    destruct (initialize_collection db_manager w) as [[[]|e] w1];
      [|discriminate].
    unfold mbind, M_bind; cbn in Hno |- *.
    intros H; apply upload_upserts in H; now rewrite H, Hno.
  - unfold mbind, M_bind, mret, M_ret; cbn.
    intros H; now apply upload_upserts in H.
Qed.

Lemma load_documents_uploads_witness :
  map id_payload
    (upserted_points
       (calls (InitializeVectorDb.load_documents sample_manager
                 (Ok sample_exported) true sample_uuid4 empty_world).2))
  = [ ("id-0"%string,
       <["document" := VStr "first"]> (<["chunk_index" := VInt 0]> ∅));
      ("id-1"%string, <["document" := VStr ""]> ∅) ].
Proof.
  exact (load_documents_uploads sample_manager sample_exported true
           sample_uuid4 empty_world
           (InitializeVectorDb.load_documents sample_manager
              (Ok sample_exported) true sample_uuid4 empty_world).2
           eq_refl).
Defined.

(** X14. With [recreate], the collection is deleted and created anew
    before the file is opened: when the file cannot be read or parsed,
    [load_documents] raises, and by then it has sent exactly the
    deletion and the creation, so the old content is gone and nothing
    has been uploaded. *)
Theorem load_documents_recreates_before_reading {float : Type}
    (db_manager : VectorDBManager float) (failure : exn)
    (uuid4 : nat -> string) (w : world float) :
  let run :=
    InitializeVectorDb.load_documents db_manager (Raise failure) true uuid4 w in
  (exists e, run.1 = Raise e)
  /\ calls run.2
     = calls w ++ [ delete_collection (collection_name db_manager);
                    create_collection (collection_name db_manager)
                      {| params_size := vector_size db_manager;
                         params_distance := COSINE |} ]
  /\ upserted_points (calls run.2) = upserted_points (calls w).
Proof.
  cbv zeta; unfold InitializeVectorDb.load_documents.
  unfold mbind, M_bind.
  pose proof (initialize_collection_no_upsert db_manager w) as [Hcalls Hno].
  destruct (initialize_collection db_manager w) as [[[]|e] w1];
    cbn in Hcalls, Hno |- *; eauto.
Qed.

(** ** The metadata of the documents of a file *)

Lemma asdict_lookups m :
  asdict m !! "source"%string = Some (VStr (source m))
  /\ asdict m !! "file_type"%string = Some (VStr (file_type m))
  /\ asdict m !! "token_count"%string = Some (VInt (token_count m))
  /\ dom (asdict m)
     = ({[ "source"; "file_type"; "token_count"; "chunk_index";
           "total_chunks" ]}%string : gset string).
Proof.
  unfold asdict; repeat split; try (now simplify_map_eq);
    rewrite !dom_insert_L, dom_empty_L; set_solver.
Qed.

Lemma process_chunks_metadata self file_path n i chunks documents :
  process_chunks self file_path n i chunks = Ok documents ->
  Forall (fun d =>
            metadata d !! "source"%string
            = Some (VStr (source_path_of file_path))
            /\ metadata d !! "file_type"%string
               = Some (VStr (identify_file_type (os self) file_path))
            /\ (exists count, metadata d !! "token_count"%string
                              = Some (VInt count) /\ 0 <= count)
            /\ dom (metadata d)
               = ({[ "source"; "file_type"; "token_count"; "chunk_index";
                     "total_chunks" ]}%string : gset string))
    documents.
Proof.
  revert i documents; induction chunks as [|chunk chunks IH]; intros i documents.
  - intros [= <-]; constructor.
  - cbn [process_chunks].
    unfold create_enhanced_metadata at 1.
    destruct (tokenizer_encode self chunk) as [tokens|e]; cbn; [|discriminate].
    destruct (process_chunks self file_path n (i + 1) chunks) as [ds|e] eqn:Hds;
      cbn; [|discriminate].
    intros [= <-]; constructor; [|now apply (IH (i + 1))].
    cbn [metadata].
    destruct (asdict_lookups
                {| source := source_path_of file_path;
                   file_type := identify_file_type (os self) file_path;
                   token_count := Z.of_nat (List.length tokens);
                   chunk_index := i; total_chunks := n |})
      as (H1 & H2 & H3 & H4).
    repeat split; try assumption.
    eexists; split; [exact H3|cbn; lia].
Qed.

(** X15. Every document that [process_file] returns for a file carries
    exactly the five metadata keys, the same [source] (computed from the
    path) and the same [file_type] (that of the file name) as all the
    others, and a [token_count] that is not negative. *)
Theorem process_file_metadata (self : SimpleDirectoryLoader) (file_path : Path) :
  Forall (fun d =>
            metadata d !! "source"%string
            = Some (VStr (source_path_of file_path))
            /\ metadata d !! "file_type"%string
               = Some (VStr (identify_file_type (os self) file_path))
            /\ (exists count, metadata d !! "token_count"%string
                              = Some (VInt count) /\ 0 <= count)
            /\ dom (metadata d)
               = ({[ "source"; "file_type"; "token_count"; "chunk_index";
                     "total_chunks" ]}%string : gset string))
    (process_file self file_path).1.
Proof.
  destruct (process_file_cases self file_path)
    as [->|(content & chunks & _ & _ & Hds)]; [constructor|].
  now apply process_chunks_metadata in Hds.
Qed.

(** ** The two export formats *)

(** X16. When the file can be opened, the [json] and the [jsonl] format
    serialise the same values in the same order, one per document, each
    a [dict] with the document's [page_content] and [metadata]: [json]
    hands the list to one [json.dump], [jsonl] writes [json.dumps] of
    each value followed by a backslash and an [n]. *)
Theorem export_documents_same_values (env : ExportEnv)
    (documents : list Document) (output_path : Path) :
  open_write env output_path = Ok tt ->
  exists logs,
    export_documents env documents output_path "json"
    = Ok (Some (json_dump_indent2 env (map doc_data documents)), logs)
    /\ export_documents env documents output_path "jsonl"
       = Ok (Some (String.concat EmptyString
                     (map (fun v => json_dumps env v +:+ backslash_n)
                        (map doc_data documents))), logs)
    /\ Forall2 (fun doc v =>
                  exists d, v = VDict d
                    /\ d !! "page_content"%string = Some (VStr (page_content doc))
                    /\ d !! "metadata"%string = Some (VDict (metadata doc))
                    /\ dom d = ({[ "page_content"; "metadata" ]}%string
                                : gset string))
         documents (map doc_data documents).
Proof.
  intros Hopen; unfold export_documents; cbn; rewrite Hopen; cbn.
  eexists; split; [reflexivity|split].
  - do 3 f_equal.
    induction documents as [|doc documents IH]; [reflexivity|].
    cbn [jsonl_text map String.concat]; rewrite IH.
    destruct documents; [|reflexivity].
    cbn; now rewrite append_assoc.
  - induction documents as [|doc documents IH]; constructor; [|exact IH].
    eexists; split; [reflexivity|].
    repeat split; try (now simplify_map_eq);
      rewrite !dom_insert_L, dom_empty_L; set_solver.
Qed.

Lemma export_documents_same_values_witness :
  exists logs,
    export_documents sample_export_env sample_documents sample_file "json"
    = Ok (Some (json_dump_indent2 sample_export_env
                  (map doc_data sample_documents)), logs)
    /\ export_documents sample_export_env sample_documents sample_file "jsonl"
       = Ok (Some "{}\n{}\n"%string, logs).
Proof.
  destruct (export_documents_same_values sample_export_env sample_documents
              sample_file eq_refl) as (logs & Hjson & Hjsonl & _).
  exists logs; split; [exact Hjson|exact Hjsonl].
Defined.

(** ** A failed upload *)

Lemma add_document_requests_point {float : Type} (self : VectorDBManager float)
    doc_id text metadata (w : world float) :
  let run := add_document self doc_id text None metadata w in
  let sent := (doc_id, <["document" := VStr text]> (default ∅ metadata)) in
  map id_payload (upserted_points (calls run.2))
  = map id_payload (upserted_points (calls w)) ++ [sent]
  \/ map id_payload (upserted_points (calls run.2))
     = map id_payload (upserted_points (calls w))
     /\ exists e, run.1 = Raise e.
Proof.
  cbv zeta; unfold add_document, mbind, M_bind, qdrant, log, mret, M_ret.
  pose proof (create_embedding_no_upsert self text
                "text-embedding-3-large" w) as Hno.
  destruct (create_embedding self text "text-embedding-3-large" w)
    as [[vec|e0] w1]; cbn in Hno |- *.
  - left; destruct (client self (calls w1) _) as [[]|e0]; cbn;
      now rewrite upserted_points_upsert, map_app, Hno.
  - right; rewrite Hno; eauto.
Qed.

Lemma upload_prefix {float : Type} (db_manager : VectorDBManager float)
    uuid4 (k : nat) documents (w : world float) :
  exists j, (j <= List.length documents)%nat
    /\ map id_payload
         (upserted_points
            (calls (InitializeVectorDb.upload db_manager uuid4 k documents w).2))
       = map id_payload (upserted_points (calls w))
         ++ imap (fun i => uploaded uuid4 (k + i)) (take j documents).
Proof.
  revert k w; induction documents as [|doc documents IH]; intros k w.
  - exists O; cbn; now rewrite app_nil_r.
  - cbn [InitializeVectorDb.upload].
    unfold mbind at 1, M_bind at 1, add_document_with_text.
    pose proof (add_document_requests_point db_manager (uuid4 k)
                  (default EmptyString (InitializeVectorDb.doc_page_content doc))
                  (Some (default ∅ (InitializeVectorDb.doc_metadata doc))) w)
      as Hstep; cbv zeta in Hstep; cbn [default] in Hstep.
    destruct (add_document db_manager (uuid4 k) _ None _ w)
      as [[returned|e] w1] eqn:Hadd; cbn [fst snd] in Hstep |- *.
    + destruct Hstep as [Hstep|[_ [e He]]]; [|discriminate He].
      destruct (IH (S k) w1) as (j & Hj & Hrest).
      exists (S j); split; [cbn; lia|].
      rewrite Hrest, Hstep, <- app_assoc; f_equal.
      cbn [take imap app]; f_equal.
      * unfold uploaded; now replace (k + 0)%nat with k by lia.
      * apply imap_ext; intros i d _; cbn.
        now replace (S (k + i))%nat with (k + S i)%nat by lia.
    + destruct Hstep as [Hstep|[Hstep _]].
      * exists 1%nat; split; [cbn; lia|].
        rewrite Hstep; cbn [take imap]; do 2 f_equal.
        unfold uploaded; now replace (k + 0)%nat with k by lia.
      * exists O; split; [lia|]; cbn; now rewrite Hstep, app_nil_r.
Qed.

(** X17. Whether [load_documents] of [initialize_vector_db.py] returns
    or raises, the upsert requests it has sent are those of the first
    [j] elements of the file, in order, for some [j]: an element is
    never skipped and never sent out of order, and after a failure
    nothing more is sent and nothing is taken back. *)
Theorem load_documents_uploads_prefix {float : Type}
    (db_manager : VectorDBManager float)
    (documents : list InitializeVectorDb.exported_doc) (recreate : bool)
    (uuid4 : nat -> string) (w : world float) :
  let run :=
    InitializeVectorDb.load_documents db_manager (Ok documents) recreate
      uuid4 w in
  exists j, (j <= List.length documents)%nat
    /\ map id_payload (upserted_points (calls run.2))
       = map id_payload (upserted_points (calls w))
         ++ imap (uploaded uuid4) (take j documents).
Proof.
  cbv zeta; unfold InitializeVectorDb.load_documents.
  unfold mbind at 1, M_bind at 1.
  destruct recreate.
  - pose proof (initialize_collection_no_upsert db_manager w) as [_ Hno].
    destruct (initialize_collection db_manager w) as [[[]|e] w1];
      cbn in Hno |- *.
    + unfold mbind, M_bind; cbn.
      destruct (upload_prefix db_manager uuid4 0 documents w1) as (j & Hj & H).
      exists j; split; [exact Hj|]; now rewrite H, Hno.
    + exists O; split; [lia|]; cbn; now rewrite Hno, app_nil_r.
  - unfold mbind, M_bind, mret, M_ret; cbn.
    apply (upload_prefix db_manager uuid4 0 documents w).
Qed.
